(** * SkyENet: a shallow embedding of the session layer

    The development follows the repository's sources:
    - [index.js] (CommonJS) and [index.mjs] (ES module): the classes
      [ENetBase], [Server], [Client] and [RawPacketBuilder];
    - [src/enet_addon.cpp]: the native wrapper [ENetWrapper] around the
      ENet library.

    Conventions of the model:
    - The ENet library itself ([enet_peer_send], [enet_host_service],
      ...) is an external collaborator.  Every call that reaches it is
      recorded in a log, and what it answers is an explicit argument of
      the operation that makes the call.
    - Arguments have the types of [index.d.ts]: a peer id is a bigint,
      channels, flags and disconnect data are integral numbers.
    - Application callbacks registered with [on] are opaque: running one
      records the delivery and nothing else; they do not call back into
      the session.
    - One thread of control: a method runs to completion before the
      next one starts. *)

From Stdlib Require Import ZArith List Bool Lia String Ascii Arith DecimalString.
From Stdlib Require Import Strings.Byte.
Import ListNotations.
Local Open Scope string_scope.
Local Open Scope list_scope.
Local Open Scope Z_scope.

Set Implicit Arguments.

(** ** JavaScript values used at the API boundary *)

(** [PeerId] is a JS [bigint] (index.d.ts: [type PeerId = bigint]). *)
Definition PeerId := Z.

Inductive JsError : Type :=
| TypeError (msg : string)
| RangeError (msg : string)
| Error (msg : string).

(** The [data] argument of [send]/[sendRawPacket]: a string, a Node
    [Buffer], another typed array, a [DataView], an [ArrayBuffer], or a
    value of any other kind.  The binary kinds carry the bytes they
    give access to. *)
Inductive JsData : Type :=
| JsString (s : string)
| JsBuffer (b : list byte)
| JsTypedArray (b : list byte)
| JsDataView (b : list byte)
| JsArrayBuffer (b : list byte)
| JsOther.

(** A synchronous call either returns or throws. *)
Inductive Completion (A : Type) : Type :=
| Return (a : A)
| Throw (e : JsError).
Arguments Return {A} a.
Arguments Throw {A} e.

(** ** Packet flag constants (index.js, lines 103-107) *)

Definition PACKET_FLAG_RELIABLE : Z := 1.
Definition PACKET_FLAG_UNSEQUENCED : Z := 2.
Definition PACKET_FLAG_NO_ALLOCATE : Z := 4.
Definition PACKET_FLAG_UNRELIABLE_FRAGMENT : Z := 8.
Definition PACKET_FLAG_SENT : Z := 256.

Definition uint32 (z : Z) : Z := z mod 2 ^ 32.
Definition uint8 (z : Z) : Z := z mod 2 ^ 8.

(** ** Events produced by [hostService] (enet_addon.cpp, HostService) *)

(** The event object handed to JS.  The [data] property of a Receive
    event is a copy of the packet's bytes; it is absent ([None]) when
    the library's event came with a null packet. *)

Inductive ENetEvent : Type :=
| EvConnect (peer : PeerId)
| EvDisconnect (peer : PeerId) (data : Z)
| EvReceive (peer : PeerId) (channelID : Z) (data : option (list byte))
| EvUnknown.

Definition event_type (e : ENetEvent) : string :=
  match e with
  | EvConnect _ => "connect"
  | EvDisconnect _ _ => "disconnect"
  | EvReceive _ _ _ => "receive"
  | EvUnknown => "unknown"
  end.

(** ** The peer registry: a JS [Map], iterated in insertion order *)

Record PeerRecord : Type := mkPeer {
  connected : bool;
  address : option string;
  port : option Z
}.

Definition PeerMap := list (PeerId * PeerRecord).

Fixpoint map_get (k : PeerId) (m : PeerMap) : option PeerRecord :=
  match m with
  | [] => None
  | (k', v) :: m' => if Z.eqb k k' then Some v else map_get k m'
  end.

Definition map_has (k : PeerId) (m : PeerMap) : bool :=
  match map_get k m with Some _ => true | None => false end.

(** [Map.prototype.set]: an existing key keeps its position. *)
Fixpoint map_set (k : PeerId) (v : PeerRecord) (m : PeerMap) : PeerMap :=
  match m with
  | [] => [(k, v)]
  | (k', v') :: m' =>
      if Z.eqb k k' then (k', v) :: m' else (k', v') :: map_set k v m'
  end.

Fixpoint map_delete (k : PeerId) (m : PeerMap) : PeerMap :=
  match m with
  | [] => []
  | (k', v') :: m' =>
      if Z.eqb k k' then map_delete k m' else (k', v') :: map_delete k m'
  end.

(** ** The event bus *)

Inductive EventName : Type :=
| connect | disconnect | receive | error | ready.

Definition EventName_eqb (a b : EventName) : bool :=
  match a, b with
  | connect, connect | disconnect, disconnect | receive, receive
  | error, error | ready, ready => true
  | _, _ => false
  end.

(** What [emit] hands to the subscribers. *)
Inductive Payload : Type :=
| PEvent (e : ENetEvent)
| PError (e : JsError)
| PUndefined.

(** Function objects that end up in a subscriber list.  JS compares them
    by reference; each closure created by the library carries the
    allocation number it was created with.
    - [UserCb]: a handler of the application;
    - [OnceWrapped]: the closure [wrapped] that [once] builds around
      [inner];
    - [OnConnected]: the closure [onConnected] of [Client.connect]; [k]
      names the promise and the timer of that call. *)
Inductive Callback : Type :=
| UserCb (id : nat)
| OnceWrapped (id : nat) (ev : EventName) (inner : Callback)
| OnConnected (k : nat).

Fixpoint Callback_eqb (a b : Callback) : bool :=
  match a, b with
  | UserCb i, UserCb j => Nat.eqb i j
  | OnceWrapped i e f, OnceWrapped j e' g =>
      Nat.eqb i j && EventName_eqb e e' && Callback_eqb f g
  | OnConnected i, OnConnected j => Nat.eqb i j
  | _, _ => false
  end.

(** [eventCallbacks]: the four lists of [ENetBase], and [ready], which
    only the [Server] constructor adds. *)
Record Callbacks : Type := mkCallbacks {
  cb_connect : list Callback;
  cb_disconnect : list Callback;
  cb_receive : list Callback;
  cb_error : list Callback;
  cb_ready : option (list Callback)
}.

Definition get_list (ev : EventName) (c : Callbacks) : option (list Callback) :=
  match ev with
  | connect => Some (cb_connect c)
  | disconnect => Some (cb_disconnect c)
  | receive => Some (cb_receive c)
  | error => Some (cb_error c)
  | ready => cb_ready c
  end.

Definition set_list (ev : EventName) (l : list Callback) (c : Callbacks) : Callbacks :=
  match ev with
  | connect => mkCallbacks l (cb_disconnect c) (cb_receive c) (cb_error c) (cb_ready c)
  | disconnect => mkCallbacks (cb_connect c) l (cb_receive c) (cb_error c) (cb_ready c)
  | receive => mkCallbacks (cb_connect c) (cb_disconnect c) l (cb_error c) (cb_ready c)
  | error => mkCallbacks (cb_connect c) (cb_disconnect c) (cb_receive c) l (cb_ready c)
  | ready => mkCallbacks (cb_connect c) (cb_disconnect c) (cb_receive c) (cb_error c) (Some l)
  end.

(** [list.indexOf(callback)] followed by [list.splice(idx, 1)]. *)
Fixpoint remove_first (cb : Callback) (l : list Callback) : list Callback :=
  match l with
  | [] => []
  | x :: l' => if Callback_eqb x cb then l' else x :: remove_first cb l'
  end.

(** ** Calls that reach the ENet library *)

Inductive EngineCall : Type :=
| enet_initialize (ok : bool)   (* [ok]: the call returned 0 *)
| enet_deinitialize
| enet_host_create (isServer : bool) (peerCount channelLimit inBw outBw : Z)
| enet_host_destroy
| enet_host_service (timeout : Z)
| enet_host_flush
| enet_host_connect (addr : string) (port : Z) (channelCount data : Z)
| enet_peer_disconnect (peer : PeerId) (data : Z)
| enet_peer_disconnect_now (peer : PeerId) (data : Z)
| enet_peer_disconnect_later (peer : PeerId) (data : Z)
| enet_packet_create (len : nat) (flags : Z)
| enet_peer_send (peer : PeerId) (channelID : Z)
| enet_packet_destroy
| enet_host_compress_with_range_coder
| enet_host_compress_NULL
| set_host_checksum (enable : bool)
| set_host_usingNewPacketForServer (v : Z)
| set_host_usingNewPacket (v : Z).

(** ** Session configuration *)

(** The [options] argument of the constructors; [None] is an absent
    property. *)
Record Options : Type := mkOptions {
  opt_ip : option string;
  opt_address : option string;
  opt_port : option Z;
  opt_maxPeer : option Z;
  opt_channelLimit : option Z;
  opt_usingNewPacket : option bool;
  opt_usingNewPacketForServer : option bool;
  opt_incomingBandwidth : option Z;
  opt_outgoingBandwidth : option Z;
  opt_checksum : option bool;
  opt_compression : option bool
}.

(** [this.config]; a field the constructor does not write is [None]
    and reads as [undefined]. *)
Record Config : Type := mkConfig {
  ip : string;
  cfg_port : Z;
  maxPeer : option Z;
  channelLimit : Z;
  usingNewPacket : option bool;
  usingNewPacketForServer : option bool;
  incomingBandwidth : Z;
  outgoingBandwidth : Z;
  checksum : option bool;
  compression : option bool
}.

(** The repository ships the library twice. *)
Inductive Variant : Type := CJS | ESM.

(** [!!x] for an optional boolean property. *)
Definition truthy (o : option bool) : bool :=
  match o with Some b => b | None => false end.

(** [a || d] for strings and numbers ('' and 0 are falsy). *)
Definition or_string (a : option string) (d : string) : string :=
  match a with
  | Some s => if String.eqb s "" then d else s
  | None => d
  end.

Definition or_num (a : option Z) (d : Z) : Z :=
  match a with
  | Some z => if Z.eqb z 0 then d else z
  | None => d
  end.

Definition undefined_to_false (o : option bool) : bool :=
  match o with Some b => b | None => false end.

Definition server_config (v : Variant) (o : Options) : Config :=
  {| ip := or_string (opt_ip o) (or_string (opt_address o) "127.0.0.1");
     cfg_port := or_num (opt_port o) 17091;
     maxPeer := Some (or_num (opt_maxPeer o) 32);
     channelLimit := or_num (opt_channelLimit o) 2;
     usingNewPacket := None;
     usingNewPacketForServer := Some (undefined_to_false (opt_usingNewPacketForServer o));
     incomingBandwidth := or_num (opt_incomingBandwidth o) 0;
     outgoingBandwidth := or_num (opt_outgoingBandwidth o) 0;
     checksum := match v with CJS => Some (truthy (opt_checksum o)) | ESM => None end;
     compression := match v with CJS => Some (truthy (opt_compression o)) | ESM => None end |}.

Definition client_config (v : Variant) (o : Options) : Config :=
  {| ip := or_string (opt_ip o) (or_string (opt_address o) "127.0.0.1");
     cfg_port := or_num (opt_port o) 17091;
     maxPeer := None;
     channelLimit := or_num (opt_channelLimit o) 2;
     usingNewPacket := Some (undefined_to_false (opt_usingNewPacket o));
     usingNewPacketForServer := None;
     incomingBandwidth := or_num (opt_incomingBandwidth o) 0;
     outgoingBandwidth := or_num (opt_outgoingBandwidth o) 0;
     checksum := match v with CJS => Some (truthy (opt_checksum o)) | ESM => None end;
     compression := match v with CJS => Some (truthy (opt_compression o)) | ESM => None end |}.

(** ** The native wrapper (src/enet_addon.cpp) *)

(** [ENetWrapper]: [host] is true when the [ENetHost*] is not null. *)
Record ENetWrapper : Type := mkWrapper {
  host : bool;
  initialized : bool
}.

(** What a native method hands back to JS: the completion and the calls
    it made into the ENet library. *)
Definition Native (A : Type) : Type := (Completion A * list EngineCall)%type.

(** [JsValueToPeer] on a bigint, followed by the [!ok || !peer] test: the
    conversion to [uint64_t] must be lossless and the pointer not null. *)
Definition valid_peer (p : PeerId) : bool := (0 <? p) && (p <? 2 ^ 64).

Definition native_disconnect (peerId : PeerId) (data : Z) : Native unit :=
  if valid_peer peerId
  then (Return tt, [enet_peer_disconnect peerId (uint32 data)])
  else (Throw (TypeError "Invalid peer id"), []).

Definition native_disconnectNow (peerId : PeerId) (data : Z) : Native unit :=
  if valid_peer peerId
  then (Return tt, [enet_peer_disconnect_now peerId (uint32 data)])
  else (Throw (TypeError "Invalid peer id"), []).

Definition native_disconnectLater (peerId : PeerId) (data : Z) : Native unit :=
  if valid_peer peerId
  then (Return tt, [enet_peer_disconnect_later peerId (uint32 data)])
  else (Throw (TypeError "Invalid peer id"), []).

(** The ENet library's part in one send: whether [enet_packet_create]
    gave a packet, and what [enet_peer_send] returned. *)
Record SendAnswer : Type := mkSendAnswer {
  packet_created : bool;
  peer_send_result : Z
}.

(** [flags &= ~ENET_PACKET_FLAG_NO_ALLOCATE] on an [enet_uint32]. *)
Definition strip_no_allocate (flags : Z) : Z :=
  Z.land (uint32 flags) (Z.lxor (2 ^ 32 - 1) PACKET_FLAG_NO_ALLOCATE).

Definition data_length (b : list byte) : nat := List.length b.

Definition send_tail (peerId : PeerId) (channelId : Z) (len : nat) (flags : Z)
    (failmsg : string) (ans : SendAnswer) : Native Z :=
  let fl := strip_no_allocate flags in
  if packet_created ans then
    let result := peer_send_result ans in
    (Return result,
     [enet_packet_create len fl; enet_peer_send peerId (uint8 (uint32 channelId))]
       ++ (if result <? 0 then [enet_packet_destroy] else []))
  else (Throw (TypeError failmsg), [enet_packet_create len fl]).

(** [info[2].IsBuffer()]: the test of N-API holds of every
    [ArrayBufferView], that is of a [Buffer], of any other typed array
    and of a [DataView], but not of an [ArrayBuffer].  [Some b]: the
    test holds and the view gives access to the bytes [b]. *)
Definition IsBuffer (data : JsData) : option (list byte) :=
  match data with
  | JsBuffer b | JsTypedArray b | JsDataView b => Some b
  | JsString _ | JsArrayBuffer _ | JsOther => None
  end.

(** [ENetWrapper::SendPacket]: the [IsBuffer] branch, then the
    [IsString] branch, then the [TypeError]. *)
Definition native_sendPacket (peerId : PeerId) (channelId : Z) (data : JsData)
    (flags : Z) (ans : SendAnswer) : Native Z :=
  if valid_peer peerId then
    match IsBuffer data with
    | Some b => send_tail peerId channelId (data_length b) flags "Failed to create packet" ans
    | None =>
        match data with
        | JsString s =>
            send_tail peerId channelId (data_length (list_byte_of_string s)) flags
              "Failed to create packet" ans
        | _ => (Throw (TypeError "Data must be a Buffer or string"), [])
        end
    end
  else (Throw (TypeError "Invalid peer id"), []).

(** [ENetWrapper::SendRawPacket]: the [IsBuffer] branch, then the
    [IsTypedArray] and [IsArrayBuffer] branches, then the [TypeError]. *)
Definition native_sendRawPacket (peerId : PeerId) (channelId : Z) (data : JsData)
    (flags : Z) (ans : SendAnswer) : Native Z :=
  if valid_peer peerId then
    match IsBuffer data with
    | Some b => send_tail peerId channelId (data_length b) flags "Failed to create raw packet" ans
    | None =>
        match data with
        | JsTypedArray b | JsArrayBuffer b =>
            send_tail peerId channelId (data_length b) flags "Failed to create raw packet" ans
        | _ => (Throw (TypeError "Data must be a Buffer, TypedArray, or ArrayBuffer for raw packet"), [])
        end
    end
  else (Throw (TypeError "Invalid peer id"), []).

(** The ENet library's part in [CreateHost]. *)
Record HostAnswer : Type := mkHostAnswer {
  address_ok : bool;
  host_created : bool
}.

(** [ENetWrapper::CreateHost]; [bind] is the first argument ([None] for
    a client).  Returns the wrapper after the call as well. *)
Definition native_createHost (w : ENetWrapper) (bind : option (string * Z))
    (peerCount channelLim inBw outBw : Z) (ans : HostAnswer)
    : ENetWrapper * Native bool :=
  if negb (initialized w) then (w, (Throw (TypeError "ENet not initialized"), []))
  else
    let pre := if host w then [enet_host_destroy] else [] in
    let isServer := match bind with Some _ => true | None => false end in
    if isServer && negb (address_ok ans)
    then (w, (Throw (TypeError "Failed to set host address"), pre))
    else
      let call := enet_host_create isServer (uint32 peerCount) (uint32 channelLim)
                    (uint32 inBw) (uint32 outBw) in
      if host_created ans
      then (mkWrapper true (initialized w), (Return true, pre ++ [call]))
      else (mkWrapper false (initialized w),
            (Throw (TypeError "Failed to create ENet host"), pre ++ [call])).

Definition native_destroyHost (w : ENetWrapper) : ENetWrapper * Native unit :=
  (mkWrapper false (initialized w),
   (Return tt, if host w then [enet_host_destroy] else [])).

(** [ENetWrapper::SetCompression] called with a boolean. *)
Definition native_setCompression (w : ENetWrapper) (enable : bool) : Native unit :=
  if host w then
    (Return tt, [if enable then enet_host_compress_with_range_coder
                 else enet_host_compress_NULL])
  else (Throw (TypeError "Host not created"), []).

(** [ENetWrapper::SetChecksum] called with a boolean. *)
Definition native_setChecksum (w : ENetWrapper) (enable : bool) : Native unit :=
  if host w then (Return tt, [set_host_checksum enable])
  else (Throw (TypeError "Host not created"), []).

(** [ENetWrapper::SetNewPacket] called with two booleans. *)
Definition native_setNewPacket (w : ENetWrapper) (enable isServer : bool) : Native unit :=
  if host w then
    (Return tt, [if isServer then set_host_usingNewPacketForServer (if enable then 1 else 0)
                 else set_host_usingNewPacket (if enable then 1 else 0)])
  else (Throw (TypeError "Host not created"), []).

(** What [enet_host_service] did in one poll. *)
Inductive ServiceAnswer : Type :=
| HsError
| HsNone
| HsEvent (e : ENetEvent).

(** What [HostService] does with the packet of the library's event:
    the packet of a Receive event is copied into the [data] property
    and destroyed. *)
Definition release_packet (e : ENetEvent) : list EngineCall :=
  match e with
  | EvReceive _ _ (Some _) => [enet_packet_destroy]
  | _ => []
  end.

(** [ENetWrapper::HostService]; [None] is JS [null]. *)
Definition native_hostService (w : ENetWrapper) (timeout : Z) (ans : ServiceAnswer)
    : Native (option ENetEvent) :=
  if host w then
    match ans with
    | HsError => (Throw (TypeError "Error occurred during host service"),
                  [enet_host_service (uint32 timeout)])
    | HsNone => (Return None, [enet_host_service (uint32 timeout)])
    | HsEvent e => (Return (Some e), enet_host_service (uint32 timeout) :: release_packet e)
    end
  else (Throw (TypeError "Host not created"), []).

(** The ENet library's part in [Connect]: [peer = 0] is a null pointer. *)
Record ConnectAnswer : Type := mkConnectAnswer {
  connect_address_ok : bool;
  connect_peer : PeerId
}.

(** [ENetWrapper::Connect]. *)
Definition native_connect (w : ENetWrapper) (addr : string) (prt channelCount data : Z)
    (ans : ConnectAnswer) : Native PeerId :=
  if host w then
    if connect_address_ok ans then
      let call := enet_host_connect addr (prt mod 2 ^ 16) (uint32 channelCount) (uint32 data) in
      if Z.eqb (connect_peer ans) 0
      then (Throw (TypeError "Failed to connect"), [call])
      else (Return (connect_peer ans), [call])
    else (Throw (TypeError "Failed to set host address"), [])
  else (Throw (TypeError "Host not created"), []).

(** ** Session state *)

Inductive PromiseState : Type :=
| Pending
| Fulfilled
| Rejected (e : JsError).

(** One [ENetBase] object ([Server] or [Client]) together with the part
    of the JS runtime it uses.
    - [native] .. [serverPeer]: the fields of the object ([serverPeer]
      exists on a [Client] only; [None] is [null]);
    - [variant]: which of the two shipped modules the class comes from;
    - [timers]: the pending [setTimeout] timers of [Client.connect];
    - [promises]: the promises created by [Client.connect];
    - [nextId]: allocation counter for closures;
    - [emitted]: every [emit] on an existing subscriber list, in order;
    - [delivered]: what application handlers received, in order;
    - [engine_log]: every call made into the ENet library, in order. *)
Record Session : Type := mkSession {
  native : ENetWrapper;
  peers : PeerMap;
  eventCallbacks : Callbacks;
  running : bool;
  hostCreated : bool;
  config : Config;
  serverPeer : option PeerId;
  variant : Variant;
  timers : list nat;
  promises : list (nat * PromiseState);
  nextId : nat;
  emitted : list (EventName * Payload);
  delivered : list (nat * Payload);
  engine_log : list EngineCall
}.

Definition with_native (x : ENetWrapper) (s : Session) : Session :=
  mkSession x (peers s) (eventCallbacks s) (running s) (hostCreated s) (config s)
    (serverPeer s) (variant s) (timers s) (promises s) (nextId s) (emitted s)
    (delivered s) (engine_log s).

Definition with_peers (x : PeerMap) (s : Session) : Session :=
  mkSession (native s) x (eventCallbacks s) (running s) (hostCreated s) (config s)
    (serverPeer s) (variant s) (timers s) (promises s) (nextId s) (emitted s)
    (delivered s) (engine_log s).

Definition with_eventCallbacks (x : Callbacks) (s : Session) : Session :=
  mkSession (native s) (peers s) x (running s) (hostCreated s) (config s)
    (serverPeer s) (variant s) (timers s) (promises s) (nextId s) (emitted s)
    (delivered s) (engine_log s).

Definition with_running (x : bool) (s : Session) : Session :=
  mkSession (native s) (peers s) (eventCallbacks s) x (hostCreated s) (config s)
    (serverPeer s) (variant s) (timers s) (promises s) (nextId s) (emitted s)
    (delivered s) (engine_log s).

Definition with_hostCreated (x : bool) (s : Session) : Session :=
  mkSession (native s) (peers s) (eventCallbacks s) (running s) x (config s)
    (serverPeer s) (variant s) (timers s) (promises s) (nextId s) (emitted s)
    (delivered s) (engine_log s).

Definition with_serverPeer (x : option PeerId) (s : Session) : Session :=
  mkSession (native s) (peers s) (eventCallbacks s) (running s) (hostCreated s) (config s)
    x (variant s) (timers s) (promises s) (nextId s) (emitted s)
    (delivered s) (engine_log s).

Definition with_timers (x : list nat) (s : Session) : Session :=
  mkSession (native s) (peers s) (eventCallbacks s) (running s) (hostCreated s) (config s)
    (serverPeer s) (variant s) x (promises s) (nextId s) (emitted s)
    (delivered s) (engine_log s).

Definition with_promises (x : list (nat * PromiseState)) (s : Session) : Session :=
  mkSession (native s) (peers s) (eventCallbacks s) (running s) (hostCreated s) (config s)
    (serverPeer s) (variant s) (timers s) x (nextId s) (emitted s)
    (delivered s) (engine_log s).

Definition with_nextId (x : nat) (s : Session) : Session :=
  mkSession (native s) (peers s) (eventCallbacks s) (running s) (hostCreated s) (config s)
    (serverPeer s) (variant s) (timers s) (promises s) x (emitted s)
    (delivered s) (engine_log s).

Definition with_emitted (x : list (EventName * Payload)) (s : Session) : Session :=
  mkSession (native s) (peers s) (eventCallbacks s) (running s) (hostCreated s) (config s)
    (serverPeer s) (variant s) (timers s) (promises s) (nextId s) x
    (delivered s) (engine_log s).

Definition with_delivered (x : list (nat * Payload)) (s : Session) : Session :=
  mkSession (native s) (peers s) (eventCallbacks s) (running s) (hostCreated s) (config s)
    (serverPeer s) (variant s) (timers s) (promises s) (nextId s) (emitted s)
    x (engine_log s).

Definition with_engine_log (x : list EngineCall) (s : Session) : Session :=
  mkSession (native s) (peers s) (eventCallbacks s) (running s) (hostCreated s) (config s)
    (serverPeer s) (variant s) (timers s) (promises s) (nextId s) (emitted s)
    (delivered s) x.

(** Record the library calls of one native method. *)
Definition log_calls (cs : list EngineCall) (s : Session) : Session :=
  with_engine_log (engine_log s ++ cs) s.

(** ** [ENetBase]: the event bus (index.js, lines 140-179) *)

Definition on (eventType : EventName) (callback : Callback) (s : Session) : Session :=
  match get_list eventType (eventCallbacks s) with
  | Some l => with_eventCallbacks (set_list eventType (l ++ [callback]) (eventCallbacks s)) s
  | None => s
  end.

Definition off (eventType : EventName) (callback : Callback) (s : Session) : Session :=
  match get_list eventType (eventCallbacks s) with
  | Some l =>
      with_eventCallbacks (set_list eventType (remove_first callback l) (eventCallbacks s)) s
  | None => s
  end.

(** [once] registers the fresh closure [wrapped], not [callback]. *)
Definition once (eventType : EventName) (callback : Callback) (s : Session) : Session :=
  let wrapped := OnceWrapped (nextId s) eventType callback in
  on eventType wrapped (with_nextId (S (nextId s)) s).

(** ** Timers and promises used by [Client.connect] *)

Fixpoint remove_nat (k : nat) (l : list nat) : list nat :=
  match l with
  | [] => []
  | x :: l' => if Nat.eqb x k then remove_nat k l' else x :: remove_nat k l'
  end.

Fixpoint mem_nat (k : nat) (l : list nat) : bool :=
  match l with
  | [] => false
  | x :: l' => Nat.eqb x k || mem_nat k l'
  end.

Definition clearTimeout (k : nat) (s : Session) : Session :=
  with_timers (remove_nat k (timers s)) s.

Fixpoint promise_state (k : nat) (l : list (nat * PromiseState)) : option PromiseState :=
  match l with
  | [] => None
  | (k', p) :: l' => if Nat.eqb k k' then Some p else promise_state k l'
  end.

(** Settling a promise that is no longer pending does nothing. *)
Fixpoint settle (k : nat) (p : PromiseState) (l : list (nat * PromiseState))
    : list (nat * PromiseState) :=
  match l with
  | [] => []
  | (k', q) :: l' =>
      if Nat.eqb k k'
      then (k', match q with Pending => p | _ => q end) :: l'
      else (k', q) :: settle k p l'
  end.

Definition resolve (k : nat) (s : Session) : Session :=
  with_promises (settle k Fulfilled (promises s)) s.

Definition reject (k : nat) (e : JsError) (s : Session) : Session :=
  with_promises (settle k (Rejected e) (promises s)) s.

(** [evt.peer]; an event without the property reads [undefined]. *)
Definition event_peer (e : ENetEvent) : option PeerId :=
  match e with
  | EvConnect p | EvDisconnect p _ | EvReceive p _ _ => Some p
  | EvUnknown => None
  end.

(** [this.serverPeer] in a condition: [null] and [0n] are falsy. *)
Definition serverPeer_truthy (s : Session) : bool :=
  match serverPeer s with
  | Some p => negb (Z.eqb p 0)
  | None => false
  end.

(** [this.serverPeer && evt && evt.peer === this.serverPeer]. *)
Definition matches_serverPeer (data : Payload) (s : Session) : bool :=
  match serverPeer s, data with
  | Some p, PEvent e =>
      negb (Z.eqb p 0) && match event_peer e with Some q => Z.eqb q p | None => false end
  | _, _ => false
  end.

(** Calling one function object with [data]. *)
Fixpoint run_callback (cb : Callback) (data : Payload) (s : Session) : Session :=
  match cb with
  | UserCb id => with_delivered (delivered s ++ [(id, data)]) s
  | OnceWrapped _ eventType inner => run_callback inner data (off eventType cb s)
  | OnConnected k =>
      if matches_serverPeer data s
      then resolve k (off connect (OnConnected k) (clearTimeout k s))
      else s
  end.

(** [Array.prototype.forEach] over the live subscriber array: the length
    is read once, the element at index [k] is read when its turn comes,
    so a callback that splices the array shifts what is visited next. *)
Fixpoint forEach_from (n k : nat) (eventType : EventName) (data : Payload)
    (s : Session) : Session :=
  match n with
  | O => s
  | S n' =>
      let s' :=
        match get_list eventType (eventCallbacks s) with
        | Some l =>
            match nth_error l k with
            | Some cb => run_callback cb data s
            | None => s
            end
        | None => s
        end in
      forEach_from n' (S k) eventType data s'
  end.

Definition emit (eventType : EventName) (data : Payload) (s : Session) : Session :=
  match get_list eventType (eventCallbacks s) with
  | Some l =>
      forEach_from (List.length l) 0 eventType data
        (with_emitted (emitted s ++ [(eventType, data)]) s)
  | None => s
  end.

(** ** A state-and-exception monad for the JS methods *)

Definition JS (A : Type) : Type := Session -> Completion A * Session.

Definition ret {A : Type} (a : A) : JS A := fun s => (Return a, s).

Definition throw {A : Type} (e : JsError) : JS A := fun s => (Throw e, s).

Definition bind {A B : Type} (m : JS A) (f : A -> JS B) : JS B :=
  fun s =>
    match m s with
    | (Return a, s') => f a s'
    | (Throw e, s') => (Throw e, s')
    end.

(** [try { m } catch (err) { h err }]. *)
Definition try_catch {A : Type} (m : JS A) (h : JsError -> JS A) : JS A :=
  fun s =>
    match m s with
    | (Return a, s') => (Return a, s')
    | (Throw e, s') => h e s'
    end.

Definition get {A : Type} (f : Session -> A) : JS A := fun s => (Return (f s), s).

Definition modify (f : Session -> Session) : JS unit := fun s => (Return tt, f s).

(** Calling a native method: its library calls go to the log. *)
Definition lift_native {A : Type} (r : Native A) : JS A :=
  fun s => (fst r, log_calls (snd r) s).

Declare Scope js_scope.
Delimit Scope js_scope with js.
Notation "x <- m ;; k" := (bind m (fun x => k))
  (at level 61, m at next level, right associativity) : js_scope.
Notation "m ;;; k" := (bind m (fun _ => k))
  (at level 61, right associativity) : js_scope.
Local Open Scope js_scope.

Definition string_of_Z (z : Z) : string := NilZero.string_of_int (Z.to_int z).

(** ** [ENetBase] (index.js lines 112-358, index.mjs lines 668-914) *)

(** [setupHost(config, isServer)].  The CommonJS module passes the
    configured booleans; the ES module passes [true] twice. *)
Definition setupHost (cfg : Config) (isServer : bool) : JS unit :=
  v <- get variant ;;
  w <- get native ;;
  lift_native (native_setCompression w
                 (match v with CJS => truthy (compression cfg) | ESM => true end)) ;;;
  lift_native (native_setChecksum w
                 (match v with CJS => truthy (checksum cfg) | ESM => true end)) ;;;
  if truthy (usingNewPacket cfg) || truthy (usingNewPacketForServer cfg)
  then lift_native (native_setNewPacket w true isServer)
  else ret tt.

Definition set_connected (b : bool) (r : PeerRecord) : PeerRecord :=
  mkPeer b (address r) (port r).

(** [handleEvent(event)]. *)
Definition handleEvent (event : ENetEvent) : JS unit :=
  try_catch
    (match event with
     | EvConnect p =>
         modify (fun s =>
           match map_get p (peers s) with
           | Some r => with_peers (map_set p (set_connected true r) (peers s)) s
           | None => with_peers (map_set p (mkPeer true None None) (peers s)) s
           end) ;;;
         modify (emit connect (PEvent event))
     | EvDisconnect p _ =>
         modify (fun s =>
           match map_get p (peers s) with
           | Some r =>
               with_peers (map_delete p (map_set p (set_connected false r) (peers s))) s
           | None => s
           end) ;;;
         modify (emit disconnect (PEvent event))
     | EvReceive _ _ _ => modify (emit receive (PEvent event))
     | EvUnknown =>
         modify (emit error
                   (PError (Error (String.append "Unknown event type: " (event_type event)))))
     end)
    (fun err => modify (emit error (PError err))).

(** [service(timeout)]. *)
Definition service (timeout : Z) (ans : ServiceAnswer) : JS (option ENetEvent) :=
  hc <- get hostCreated ;;
  if negb hc then ret None
  else
    w <- get native ;;
    event <- lift_native (native_hostService w timeout ans) ;;
    match event with
    | Some e => handleEvent e ;;; ret event
    | None => ret event
    end.

(** [send(peerId, channelId, data, reliable)]. *)
Definition ENetBase_send (peerId : PeerId) (channelId : Z) (data : JsData)
    (reliable : bool) (ans : SendAnswer) : JS Z :=
  try_catch
    (let flags := if reliable then 1 else 0 in
     lift_native (native_sendPacket peerId channelId data flags ans))
    (fun err => modify (emit error (PError err)) ;;; ret (-1)).

(** [sendRawPacket(peerId, channelId, data, flags)]. *)
Definition ENetBase_sendRawPacket (peerId : PeerId) (channelId : Z) (data : JsData)
    (flags : Z) (ans : SendAnswer) : JS Z :=
  try_catch
    (lift_native (native_sendRawPacket peerId channelId data flags ans))
    (fun err => modify (emit error (PError err)) ;;; ret (-1)).

(** [disconnect(peerId, data)]. *)
Definition ENetBase_disconnect (peerId : PeerId) (data : Z) : JS unit :=
  try_catch
    (lift_native (native_disconnect peerId data) ;;;
     modify (fun s => with_peers (map_delete peerId (peers s)) s))
    (fun err => modify (emit error (PError err))).

(** [disconnectNow(peerId, data)]. *)
Definition ENetBase_disconnectNow (peerId : PeerId) (data : Z) : JS unit :=
  try_catch
    (lift_native (native_disconnectNow peerId data) ;;;
     modify (fun s => with_peers (map_delete peerId (peers s)) s))
    (fun err => modify (emit error (PError err))).

(** [disconnectLater(peerId, data)]. *)
Definition ENetBase_disconnectLater (peerId : PeerId) (data : Z) : JS unit :=
  try_catch
    (lift_native (native_disconnectLater peerId data) ;;;
     modify (fun s => with_peers (map_delete peerId (peers s)) s))
    (fun err => modify (emit error (PError err))).

(** [destroy()]. *)
Definition destroy : JS unit :=
  try_catch
    (w <- get native ;;
     modify (with_native (fst (native_destroyHost w))) ;;;
     lift_native (snd (native_destroyHost w)) ;;;
     modify (with_peers []) ;;;
     modify (with_hostCreated false))
    (fun err => modify (emit error (PError err))).

(** [stop()]. *)
Definition stop (s : Session) : Session := with_running false s.

(** ** The polling loop: [ENetBase.listen] *)

(** What happens around one pass of the [while] body: what the library
    answers to the poll, and whether [stop()] is called while the loop
    sleeps. *)
Record Tick : Type := mkTick {
  tick_answer : ServiceAnswer;
  tick_stop : bool
}.

Inductive Outcome : Type :=
| Produced   (* [service] returned an event *)
| Idle       (* [service] returned [null] *)
| Failed.    (* [service] threw: the loop breaks *)

(** One pass: the value of [currentInterval] handed to [service], what
    came back, and the value of [currentInterval] after the pass. *)
Record Iteration : Type := mkIteration {
  interval_in : Z;
  outcome : Outcome;
  interval_out : Z
}.

(** The [while (this.running)] loop, observed for as many passes as
    [script] has ticks. *)
Fixpoint listen_loop (pollIntervalMs maxPollIntervalMs currentInterval : Z)
    (script : list Tick) (s : Session) : list Iteration * Session :=
  match script with
  | [] => ([], s)
  | t :: script' =>
      if negb (running s) then ([], s)
      else
        match service currentInterval (tick_answer t) s with
        | (Return event, s1) =>
            let next :=
              match event with
              | Some _ => pollIntervalMs
              | None => Z.min (currentInterval * 2) maxPollIntervalMs
              end in
            let s2 := if tick_stop t then stop s1 else s1 in
            let rest := listen_loop pollIntervalMs maxPollIntervalMs next script' s2 in
            (mkIteration currentInterval
               (match event with Some _ => Produced | None => Idle end) next :: fst rest,
             snd rest)
        | (Throw err, s1) =>
            ([mkIteration currentInterval Failed currentInterval],
             emit error (PError err) s1)
        end
  end.

(** [listen(pollIntervalMs, maxPollIntervalMs)]. *)
Definition listen (pollIntervalMs maxPollIntervalMs : Z) (script : list Tick)
    (s : Session) : list Iteration * Session :=
  listen_loop pollIntervalMs maxPollIntervalMs pollIntervalMs script
    (with_running true s).

(** ** [Server] (index.js lines 363-470, index.mjs lines 919-1022) *)

Definition no_callbacks : Callbacks := mkCallbacks [] [] [] [] None.

(** The object right after [super()] and the assignment of [config]:
    [w] is the native wrapper as [this.initialize()] left it. *)
Definition new_session (v : Variant) (cfg : Config) (cbs : Callbacks)
    (w : ENetWrapper) : Session :=
  mkSession w [] cbs false false cfg None v [] [] 0 [] [] [].

Definition new_Server (v : Variant) (o : Options) (w : ENetWrapper) : Session :=
  new_session v (server_config v o) (mkCallbacks [] [] [] [] (Some [])) w.

Definition opt_num (o : option Z) : Z := match o with Some z => z | None => 0 end.

(** [createServer()]; [isPortAvailable] is what the UDP probe resolved
    to. *)
Definition createServer (isPortAvailable : bool) (ans : HostAnswer) : JS bool :=
  try_catch
    (cfg <- get config ;;
     (if negb isPortAvailable then
        let err := Error (String.append "Port "
                           (String.append (string_of_Z (cfg_port cfg))
                              (String.append " is already in use on " (ip cfg)))) in
        modify (emit error (PError err)) ;;; throw err
      else ret tt) ;;;
     w <- get native ;;
     let r := native_createHost w (Some (ip cfg, cfg_port cfg))
                (opt_num (maxPeer cfg)) (channelLimit cfg)
                (incomingBandwidth cfg) (outgoingBandwidth cfg) ans in
     modify (with_native (fst r)) ;;;
     result <- lift_native (snd r) ;;
     (if negb result then throw (Error "Failed to create server host") else ret tt) ;;;
     setupHost cfg true ;;;
     modify (with_hostCreated true) ;;;
     ret true)
    (fun err => modify (emit error (PError err)) ;;; throw err).



(** ** [Client] (index.js lines 475-631, index.mjs lines 1027-1179) *)

(** [createClient()]. *)
Definition createClient (ans : HostAnswer) : JS unit :=
  try_catch
    (cfg <- get config ;;
     w <- get native ;;
     let r := native_createHost w None 1 (channelLimit cfg)
                (incomingBandwidth cfg) (outgoingBandwidth cfg) ans in
     modify (with_native (fst r)) ;;;
     result <- lift_native (snd r) ;;
     (if negb result then throw (Error "Failed to create client host") else ret tt) ;;;
     setupHost cfg false ;;;
     modify (with_hostCreated true))
    (fun err => modify (emit error (PError err)) ;;; throw err).

(** The constructor: [initialize()] then [createClient()].  A throwing
    [createClient] aborts the construction. *)
Definition new_Client (v : Variant) (o : Options) (w : ENetWrapper) (ans : HostAnswer)
    : Completion unit * Session :=
  createClient ans (new_session v (client_config v o) no_callbacks w).

(** The executor of the promise in [connect]: allocate the promise and
    the closure [onConnected] (both named [k]), subscribe with [once],
    arm the timer. *)
Definition connect_race : JS nat :=
  k <- get nextId ;;
  modify (with_nextId (S k)) ;;;
  modify (fun s => with_promises (promises s ++ [(k, Pending)]) s) ;;;
  modify (once connect (OnConnected k)) ;;;
  modify (fun s => with_timers (timers s ++ [k]) s) ;;;
  ret k.

(** [connect({timeoutMs})] up to the point where the call suspends on
    the promise ([Some k]) or, without a timeout, until [listen] ends
    ([None]).  With a timeout and no loop running, the background loop
    makes one poll, answered by [first_poll], before [once] is reached.
    Without a timeout the loop runs over [script]. *)
Definition Client_connect (timeoutMs : Z) (host_ans : HostAnswer)
    (ans : ConnectAnswer) (first_poll : ServiceAnswer) (script : list Tick)
    : JS (option nat) :=
  try_catch
    (hc <- get hostCreated ;;
     (if negb hc then createClient host_ans else ret tt) ;;;
     cfg <- get config ;;
     w <- get native ;;
     peerId <- lift_native (native_connect w (ip cfg) (cfg_port cfg) (channelLimit cfg) 0 ans) ;;
     (if negb (Z.eqb peerId 0) then
        modify (fun s =>
          with_peers (map_set peerId (mkPeer false (Some (ip cfg)) (Some (cfg_port cfg)))
                        (peers s))
            (with_serverPeer (Some peerId) s))
      else ret tt) ;;;
     if 0 <? timeoutMs then
       r <- get running ;;
       (if negb r
        then modify (fun s => snd (listen 2 32 [mkTick first_poll false] s))
        else ret tt) ;;;
       k <- connect_race ;;
       ret (Some k)
     else
       modify (fun s => snd (listen 2 32 script s)) ;;;
       ret None)
    (fun err => modify (emit error (PError err)) ;;; ret None).

(** The timer of [connect] number [k] expires: its callback runs, and
    the suspended [connect] resumes in its [catch] when the promise was
    still pending. *)
Definition timer_fires (k : nat) (s : Session) : Session :=
  if mem_nat k (timers s) then
    let s1 := with_timers (remove_nat k (timers s)) s in
    let s2 := off connect (OnConnected k) s1 in
    let err := Error "Connect timeout" in
    match promise_state k (promises s2) with
    | Some Pending => emit error (PError err) (reject k err s2)
    | _ => reject k err s2
    end
  else s.

(** Instance-level [send(channelId, data, reliable)]. *)
Definition Client_send (channelId : Z) (data : JsData) (reliable : bool)
    (ans : SendAnswer) : JS Z :=
  sp <- get serverPeer ;;
  truthy_sp <- get serverPeer_truthy ;;
  match sp with
  | Some p =>
      if truthy_sp then ENetBase_send p channelId data reliable ans
      else modify (emit error (PError (Error "Not connected to server"))) ;;; ret (-1)
  | None => modify (emit error (PError (Error "Not connected to server"))) ;;; ret (-1)
  end.

(** Instance-level [sendRawPacket(channelId, data, flags)]. *)
Definition Client_sendRawPacket (channelId : Z) (data : JsData) (flags : Z)
    (ans : SendAnswer) : JS Z :=
  sp <- get serverPeer ;;
  truthy_sp <- get serverPeer_truthy ;;
  match sp with
  | Some p =>
      if truthy_sp then ENetBase_sendRawPacket p channelId data flags ans
      else modify (emit error (PError (Error "Not connected to server"))) ;;; ret (-1)
  | None => modify (emit error (PError (Error "Not connected to server"))) ;;; ret (-1)
  end.

(** The three instance-level disconnects share one shape. *)
Definition Client_disconnect_with (super : PeerId -> Z -> JS unit) (data : Z) : JS unit :=
  sp <- get serverPeer ;;
  truthy_sp <- get serverPeer_truthy ;;
  match sp with
  | Some p =>
      if truthy_sp
      then super p data ;;; modify (with_serverPeer None)
      else ret tt
  | None => ret tt
  end.

Definition Client_disconnect : Z -> JS unit := Client_disconnect_with ENetBase_disconnect.
Definition Client_disconnectNow : Z -> JS unit := Client_disconnect_with ENetBase_disconnectNow.
Definition Client_disconnectLater : Z -> JS unit := Client_disconnect_with ENetBase_disconnectLater.

(** ** The process-wide init count (enet_addon.cpp, lines 11, 109-144) *)

Module EngineInit.

(** [fetch_add(1)] and [fetch_sub(1)] on [std::atomic<uint32_t>]: the
    stored value wraps, the old value is returned. *)
Definition fetch_add (g : Z) : Z * Z := (g, uint32 (g + 1)).
Definition fetch_sub (g : Z) : Z * Z := (g, uint32 (g - 1)).

(** [ENetWrapper::Initialize]; [enet_ok] tells whether [enet_initialize]
    returns 0 if it is called.  Gives the new count, the wrapper after
    the call and what JS sees. *)
Definition Initialize (g : Z) (w : ENetWrapper) (enet_ok : bool)
    : Z * ENetWrapper * Native bool :=
  if initialized w then (g, w, (Return true, []))
  else
    let (old, g1) := fetch_add g in
    if Z.eqb old 0 then
      if enet_ok
      then (g1, mkWrapper (host w) true, (Return true, [enet_initialize true]))
      else (snd (fetch_sub g1), w,
            (Throw (TypeError "Failed to initialize ENet"), [enet_initialize false]))
    else (g1, mkWrapper (host w) true, (Return true, [])).

(** [ENetWrapper::Deinitialize]. *)
Definition Deinitialize (g : Z) (w : ENetWrapper) : Z * ENetWrapper * Native unit :=
  let pre := if host w then [enet_host_destroy] else [] in
  if initialized w then
    let (old, g1) := fetch_sub g in
    (g1, mkWrapper false false,
     (Return tt, pre ++ (if Z.eqb old 1 then [enet_deinitialize] else [])))
  else (g, mkWrapper false false, (Return tt, pre)).

(** One process: the global [g_enetInitCount] and every [ENetWrapper]
    object created so far (one per session). *)
Record Process : Type := mkProcess {
  g_enetInitCount : Z;
  wrappers : list ENetWrapper
}.

Definition start : Process := mkProcess 0 [].

Inductive Op : Type :=
| NewENet                                   (* [new enet.ENet()] *)
| CallInitialize (i : nat) (enet_ok : bool) (* session [i] calls [initialize()] *)
| CallDeinitialize (i : nat).               (* session [i] calls [deinitialize()] *)

Fixpoint update_nth (i : nat) (w : ENetWrapper) (l : list ENetWrapper) : list ENetWrapper :=
  match l, i with
  | [], _ => []
  | _ :: l', O => w :: l'
  | x :: l', S i' => x :: update_nth i' w l'
  end.

(** One call; a session that does not exist cannot call anything. *)
Definition step (op : Op) (p : Process) : Process * list EngineCall :=
  match op with
  | NewENet => (mkProcess (g_enetInitCount p) (wrappers p ++ [mkWrapper false false]), [])
  | CallInitialize i enet_ok =>
      match nth_error (wrappers p) i with
      | Some w =>
          let '(g', w', r) := Initialize (g_enetInitCount p) w enet_ok in
          (mkProcess g' (update_nth i w' (wrappers p)), snd r)
      | None => (p, [])
      end
  | CallDeinitialize i =>
      match nth_error (wrappers p) i with
      | Some w =>
          let '(g', w', r) := Deinitialize (g_enetInitCount p) w in
          (mkProcess g' (update_nth i w' (wrappers p)), snd r)
      | None => (p, [])
      end
  end.

(** A step as seen from outside: the count before, the library calls
    made, the count after. *)
Record Observed : Type := mkObserved {
  count_before : Z;
  made : list EngineCall;
  count_after : Z
}.

Fixpoint run (ops : list Op) (p : Process) : list Observed * Process :=
  match ops with
  | [] => ([], p)
  | op :: ops' =>
      let (p', cs) := step op p in
      let rest := run ops' p' in
      (mkObserved (g_enetInitCount p) cs (g_enetInitCount p') :: fst rest, snd rest)
  end.

Definition is_teardown (c : EngineCall) : bool :=
  match c with enet_deinitialize => true | _ => false end.

Definition is_init (c : EngineCall) : bool :=
  match c with enet_initialize _ => true | _ => false end.

Definition count_calls (f : EngineCall -> bool) (cs : list EngineCall) : nat :=
  List.length (filter f cs).

(** The init/teardown protocol of the library, followed along a log:
    [Some up] when no init happened on an initialised library and no
    teardown on a library that is down; [up] is the state at the end. *)
Fixpoint protocol (up : bool) (cs : list EngineCall) : option bool :=
  match cs with
  | [] => Some up
  | enet_initialize ok :: cs' => if up then None else protocol ok cs'
  | enet_deinitialize :: cs' => if up then protocol false cs' else None
  | _ :: cs' => protocol up cs'
  end.

Definition all_calls (obs : list Observed) : list EngineCall :=
  List.concat (map made obs).

(** How many wrappers hold a slot. *)
Definition live (l : list ENetWrapper) : nat := List.length (filter initialized l).

(** What the claim says of one step. *)
Definition step_ok (o : Observed) : Prop :=
  count_calls is_teardown (made o)
    = (if (0 <? count_before o) && (count_after o =? 0) then 1%nat else 0%nat)
  /\ (count_calls is_init (made o) <= 1)%nat
  /\ (forall ok, In (enet_initialize ok) (made o) ->
        count_before o = 0 /\ count_after o = (if ok then 1 else 0)).

Definition b2n (b : bool) : nat := if b then 1%nat else 0%nat.

(** The count is the number of wrappers that hold a slot. *)
Definition counted (p : Process) : Prop :=
  g_enetInitCount p = Z.of_nat (live (wrappers p)).

(** Two sessions: the second release is the one that tears down. *)
Definition two_sessions : list Op :=
  [NewENet; NewENet; CallInitialize 0 true; CallInitialize 1 true;
   CallDeinitialize 0; CallDeinitialize 1].

End EngineInit.

(** ** [RawPacketBuilder] (index.mjs, lines 1191-1266) *)

Module RawPacketBuilder.

(** [buffer] is the [ArrayBuffer]; its length is its [byteLength].  The
    [DataView] [view] spans the whole buffer. *)
Record t : Type := mk {
  buffer : list byte;
  offset : nat
}.

Definition byteLength (b : t) : nat := List.length (buffer b).

(** [new RawPacketBuilder(size)]: a zero-filled buffer. *)
Definition new (size : nat) : t := mk (repeat x00 size) 0.

Definition byte_of_Z (z : Z) : byte :=
  match Byte.of_N (Z.to_N (z mod 256)) with
  | Some b => b
  | None => x00
  end.

(** The [width] low bytes of [v], least significant first. *)
Fixpoint le_bytes (width : nat) (v : Z) : list byte :=
  match width with
  | O => []
  | S w => byte_of_Z v :: le_bytes w (Z.shiftr v 8)
  end.

Definition encode_uint (width : nat) (v : Z) (littleEndian : bool) : list byte :=
  if littleEndian then le_bytes width v else rev (le_bytes width v).

(** Overwrite [bytes] at [off]; callers check the bounds first. *)
Definition store (buf : list byte) (off : nat) (bytes : list byte) : list byte :=
  firstn off buf ++ bytes ++ skipn (off + List.length bytes) buf.

(** [DataView.prototype.setUintN(getIndex, ...)] (ECMAScript
    SetViewValue): a [RangeError] when
    [getIndex + elementSize > viewSize]. *)
Definition DataView_set (buf : list byte) (getIndex : nat) (bytes : list byte)
    : Completion (list byte) :=
  if (List.length buf <? getIndex + List.length bytes)%nat
  then Throw (RangeError "Offset is outside the bounds of the DataView")
  else Return (store buf getIndex bytes).

(** [new Uint8Array(buffer, byteOffset)] followed by [.set(source)]: the
    constructor throws when [byteOffset] exceeds the buffer, [set] when
    the source is longer than the view. *)
Definition Uint8Array_set (buf : list byte) (byteOffset : nat) (source : list byte)
    : Completion (list byte) :=
  if (List.length buf <? byteOffset)%nat
  then Throw (RangeError "Start offset is outside the bounds of the buffer")
  else if (List.length buf - byteOffset <? List.length source)%nat
       then Throw (RangeError "offset is out of bounds")
       else Return (store buf byteOffset source).

(** The common tail of every write: [this.offset += n; return this]. *)
Definition advance (b : t) (n : nat) (r : Completion (list byte)) : Completion t :=
  match r with
  | Return buf => Return (mk buf (offset b + n))
  | Throw e => Throw e
  end.

Definition writeUint8 (value : Z) (b : t) : Completion t :=
  advance b 1 (DataView_set (buffer b) (offset b) (encode_uint 1 value true)).

Definition writeUint16 (value : Z) (littleEndian : bool) (b : t) : Completion t :=
  advance b 2 (DataView_set (buffer b) (offset b) (encode_uint 2 value littleEndian)).

Definition writeUint32 (value : Z) (littleEndian : bool) (b : t) : Completion t :=
  advance b 4 (DataView_set (buffer b) (offset b) (encode_uint 4 value littleEndian)).

(** The float writers take the IEEE 754 bit pattern of the value; the
    rounding from a JS number to that pattern is not modelled. *)
Definition writeFloat32 (bits : Z) (littleEndian : bool) (b : t) : Completion t :=
  advance b 4 (DataView_set (buffer b) (offset b) (encode_uint 4 bits littleEndian)).

Definition writeFloat64 (bits : Z) (littleEndian : bool) (b : t) : Completion t :=
  advance b 8 (DataView_set (buffer b) (offset b) (encode_uint 8 bits littleEndian)).

(** [TextEncoder.encode]: a Rocq string is taken as its UTF-8 bytes. *)
Definition encode (str : string) : list byte := list_byte_of_string str.

(** [encoding && encoding !== 'utf8']: the empty string is falsy. *)
Definition encoding_rejected (encoding : string) : bool :=
  negb (String.eqb encoding "") && negb (String.eqb encoding "utf8").

Definition writeString (str : string) (encoding : string) (b : t) : Completion t :=
  if encoding_rejected encoding
  then Throw (Error "RawPacketBuilder.writeString supports only utf8 encoding")
  else
    let encoded := encode str in
    advance b (List.length encoded) (Uint8Array_set (buffer b) (offset b) encoded).

Definition writeBytes (bytes : list byte) (b : t) : Completion t :=
  advance b (List.length bytes) (Uint8Array_set (buffer b) (offset b) bytes).

(** [buffer.slice(0, offset)]. *)
Definition getPacketData (b : t) : list byte := firstn (offset b) (buffer b).

Definition reset (b : t) : t := mk (buffer b) 0.

Definition size (b : t) : nat := offset b.

(** The write operations as data, to speak about all of them. *)
Inductive WriteOp : Type :=
| OpUint8 (value : Z)
| OpUint16 (value : Z) (littleEndian : bool)
| OpUint32 (value : Z) (littleEndian : bool)
| OpFloat32 (bits : Z) (littleEndian : bool)
| OpFloat64 (bits : Z) (littleEndian : bool)
| OpString (str : string) (encoding : string)
| OpBytes (bytes : list byte).

Definition apply (op : WriteOp) (b : t) : Completion t :=
  match op with
  | OpUint8 v => writeUint8 v b
  | OpUint16 v le => writeUint16 v le b
  | OpUint32 v le => writeUint32 v le b
  | OpFloat32 v le => writeFloat32 v le b
  | OpFloat64 v le => writeFloat64 v le b
  | OpString s enc => writeString s enc b
  | OpBytes bs => writeBytes bs b
  end.

(** The encoded width of an operation. *)
Definition width (op : WriteOp) : nat :=
  match op with
  | OpUint8 _ => 1
  | OpUint16 _ _ => 2
  | OpUint32 _ _ => 4
  | OpFloat32 _ _ => 4
  | OpFloat64 _ _ => 8
  | OpString s _ => List.length (encode s)
  | OpBytes bs => List.length bs
  end.

(** A builder used for a whole sequence of writes; a write that throws
    leaves the builder as it was and the caller goes on. *)
Fixpoint apply_all (ops : list WriteOp) (b : t) : t :=
  match ops with
  | [] => b
  | op :: ops' =>
      match apply op b with
      | Return b' => apply_all ops' b'
      | Throw _ => apply_all ops' b
      end
  end.

(** The bytes an operation stores, when its encoding is accepted. *)
Definition payload (op : WriteOp) : list byte :=
  match op with
  | OpUint8 v => encode_uint 1 v true
  | OpUint16 v le => encode_uint 2 v le
  | OpUint32 v le | OpFloat32 v le => encode_uint 4 v le
  | OpFloat64 v le => encode_uint 8 v le
  | OpString s _ => encode s
  | OpBytes bs => bs
  end.

End RawPacketBuilder.

(** ** Vocabulary of the statements *)

(** The part of a session that no subscriber can touch: subscribers
    only change the subscriber lists, the timers, the promises and the
    delivery log. *)
Definition core (s : Session) :=
  (native s, peers s, running s, hostCreated s, config s, serverPeer s,
   variant s, engine_log s, emitted s).

(** The three disconnect methods of [ENetBase]. *)
Inductive DisconnectKind : Type := Graceful | Immediate | Deferred.

Definition ENetBase_disconnect_kind (k : DisconnectKind) : PeerId -> Z -> JS unit :=
  match k with
  | Graceful => ENetBase_disconnect
  | Immediate => ENetBase_disconnectNow
  | Deferred => ENetBase_disconnectLater
  end.

Definition Client_disconnect_kind (k : DisconnectKind) : Z -> JS unit :=
  match k with
  | Graceful => Client_disconnect
  | Immediate => Client_disconnectNow
  | Deferred => Client_disconnectLater
  end.


(** The error publication a send leaves behind: one when the native
    call throws, none when it returns, whatever status it returns. *)
Definition send_errors (peerId : PeerId) (channelId : Z) (data : JsData)
    (reliable : bool) (ans : SendAnswer) : list (EventName * Payload) :=
  match fst (native_sendPacket peerId channelId data (if reliable then 1 else 0) ans) with
  | Throw e => [(error, PError e)]
  | Return _ => []
  end.


(** The toggles [setupHost] hands to the library. *)
Definition toggle (v : Variant) (configured : option bool) : bool :=
  match v with
  | CJS => truthy configured
  | ESM => true
  end.

Definition setup_calls (v : Variant) (cfg : Config) (isServer : bool) : list EngineCall :=
  [ (if toggle v (compression cfg) then enet_host_compress_with_range_coder
     else enet_host_compress_NULL);
    set_host_checksum (toggle v (checksum cfg)) ]
  ++ (if truthy (usingNewPacket cfg) || truthy (usingNewPacketForServer cfg)
      then [if isServer then set_host_usingNewPacketForServer 1
            else set_host_usingNewPacket 1]
      else []).

(** What one pass of the polling loop must satisfy. *)
Definition in_range (lo hi : Z) (it : Iteration) : Prop :=
  lo <= interval_in it <= hi /\ lo <= interval_out it <= hi.

Definition follows_rule (pollIntervalMs maxPollIntervalMs : Z) (it : Iteration) : Prop :=
  match outcome it with
  | Produced => interval_out it = pollIntervalMs
  | Idle => interval_out it = Z.min (interval_in it * 2) maxPollIntervalMs
  | Failed => interval_out it = interval_in it
  end.

(** Each pass starts with the value the previous one left. *)
Fixpoint chained (currentInterval : Z) (its : list Iteration) : Prop :=
  match its with
  | [] => True
  | it :: rest => interval_in it = currentInterval /\ chained (interval_out it) rest
  end.

(** ** Concrete sessions used below *)

Definition no_options : Options :=
  mkOptions None None None None None None None None None None None.

(** The native wrapper after a successful [initialize()]. *)
Definition initialized_wrapper : ENetWrapper := mkWrapper false true.

Definition host_ok : HostAnswer := mkHostAnswer true true.

(** [new Client()] with default options. *)
Definition fresh_client (v : Variant) : Session :=
  snd (new_Client v no_options initialized_wrapper host_ok).

(** [await Server.create()] with default options. *)
Definition fresh_server (v : Variant) : Session :=
  snd (createServer true host_ok (new_Server v no_options initialized_wrapper)).

(** A server that saw two peers connect. *)
Definition server_two_peers : Session :=
  snd (handleEvent (EvConnect 2000)
         (snd (handleEvent (EvConnect 1000) (fresh_server CJS)))).

(** That server after the application subscribed handler 1 to
    [connect], handlers 2 and 3 to [disconnect], handler 4 to [receive]
    and handler 5 to [error]. *)
Definition watched_server : Session :=
  on error (UserCb 5)
    (on receive (UserCb 4)
       (on disconnect (UserCb 3)
          (on disconnect (UserCb 2)
             (on connect (UserCb 1) server_two_peers)))).


(** A client asked for checksum and compression to be off. *)
Definition plain_options : Options :=
  mkOptions None None None None None None None None None (Some false) (Some false).

(** [client.connect({timeoutMs: 50})] on a fresh client: the library
    hands out peer 4096 and the first poll finds nothing. *)
Definition connecting : Completion (option nat) * Session :=
  Client_connect 50 host_ok (mkConnectAnswer true 4096) HsNone [] (fresh_client CJS).

(** ... and the 50 ms pass without a Connect event (timer 0 expires). *)
Definition timed_out : Session := timer_fires 0 (snd connecting).

(** ... and the Connect event for peer 4096 arrives after that. *)
Definition late_connect : Completion (option ENetEvent) * Session :=
  service 2 (HsEvent (EvConnect 4096)) timed_out.

(** A client built from [plain_options], before [createClient]. *)
Definition plain_client (v : Variant) : Session :=
  new_session v (client_config v plain_options) no_callbacks initialized_wrapper.

(** A quiet start, one event, then quiet again. *)
Definition burst : list Tick :=
  [mkTick HsNone false; mkTick HsNone false; mkTick (HsEvent (EvConnect 1000)) false;
   mkTick HsNone false; mkTick HsNone true; mkTick HsNone false].

(** The other order: the Connect event for peer 4096 arrives while the
    timer is still pending. *)
Definition connected_in_time : Completion (option ENetEvent) * Session :=
  service 2 (HsEvent (EvConnect 4096)) (snd connecting).

(** ** Further methods of [ENetBase] and of the native wrapper *)

(** [ENetWrapper::Flush]. *)
Definition native_flush (w : ENetWrapper) : Native unit :=
  if host w then (Return tt, [enet_host_flush])
  else (Throw (TypeError "Host not created"), []).

(** [flush()]. *)
Definition flush : JS unit :=
  try_catch
    (w <- get native ;; lift_native (native_flush w))
    (fun err => modify (emit error (PError err))).

(** [initialize()]: the process-wide count [g] goes in and comes out
    beside the session. *)
Definition ENetBase_initialize (g : Z) (enet_ok : bool) (s : Session)
    : Z * (Completion bool * Session) :=
  let '(g', w', r) := EngineInit.Initialize g (native s) enet_ok in
  let s1 := log_calls (snd r) (with_native w' s) in
  (g',
   match fst r with
   | Return result =>
       if negb result
       then (Return false, emit error (PError (Error "Failed to initialize ENet")) s1)
       else (Return result, s1)
   | Throw e => (Throw e, s1)
   end).

(** [deinitialize()]. *)
Definition ENetBase_deinitialize (g : Z) (s : Session) : Z * (Completion unit * Session) :=
  let '(g', w', r) := EngineInit.Deinitialize g (native s) in
  (g', (fst r, log_calls (snd r) (with_native w' s))).

(** ** More vocabulary *)

(** The number a byte sequence denotes, least significant byte first. *)
Fixpoint le_value (bs : list byte) : Z :=
  match bs with
  | [] => 0
  | b :: rest => Z.of_N (Byte.to_N b) + 256 * le_value rest
  end.

Definition is_packet_create (c : EngineCall) : bool :=
  match c with enet_packet_create _ _ => true | _ => false end.

(** The flags of every packet created in a list of library calls have
    the no-allocate bit clear. *)
Definition no_allocate_clear (c : EngineCall) : Prop :=
  match c with
  | enet_packet_create _ fl => Z.testbit fl 2 = false
  | _ => True
  end.

(** A script in which the library never has an event and nobody calls
    [stop()]. *)
Definition idle_script (n : nat) : list Tick := repeat (mkTick HsNone false) n.

(** Deliveries of one payload to a list of application handlers. *)
Definition deliveries (ids : list nat) (data : Payload) : list (nat * Payload) :=
  map (fun id => (id, data)) ids.



(** Whether a write operation passes the encoding test of
    [writeString]; the other writers have none. *)
Definition builder_accepts (op : RawPacketBuilder.WriteOp) : bool :=
  match op with
  | RawPacketBuilder.OpString _ enc => negb (RawPacketBuilder.encoding_rejected enc)
  | _ => true
  end.

(** The bytes a sequence of write operations encodes, and their
    number. *)
Definition payloads (ops : list RawPacketBuilder.WriteOp) : list byte :=
  List.concat (map RawPacketBuilder.payload ops).

Definition total_width (ops : list RawPacketBuilder.WriteOp) : nat :=
  list_sum (map RawPacketBuilder.width ops).

(** * Properties *)

(** ** Sanity checks on concrete inputs *)

Example builder_deadbeef :
  match RawPacketBuilder.writeUint32 3735928559 true (RawPacketBuilder.new 16) with
  | Return b => RawPacketBuilder.getPacketData b = [xef; xbe; xad; xde]
                /\ RawPacketBuilder.size (RawPacketBuilder.reset b) = 0%nat
  | Throw _ => False
  end.
Proof. vm_compute. split; reflexivity. Qed.

(** ** [RawPacketBuilder]: writes past the capacity *)

Module BuilderFacts.
Import RawPacketBuilder.

Lemma le_bytes_length (w : nat) (v : Z) : List.length (le_bytes w v) = w.
Proof.
  revert v; induction w as [|w IH]; intros v; simpl; [reflexivity|].
  now rewrite IH.
Qed.

Lemma encode_uint_length (w : nat) (v : Z) (le : bool) :
  List.length (encode_uint w v le) = w.
Proof.
  unfold encode_uint; destruct le.
  - apply le_bytes_length.
  - rewrite length_rev; apply le_bytes_length.
Qed.

Lemma store_length (buf : list byte) (off : nat) (bytes : list byte) :
  (off + List.length bytes <= List.length buf)%nat ->
  List.length (store buf off bytes) = List.length buf.
Proof.
  intros H; unfold store.
  rewrite !length_app, length_firstn, length_skipn; lia.
Qed.

Lemma DataView_set_overflow (buf : list byte) (i : nat) (bytes : list byte) :
  (List.length buf < i + List.length bytes)%nat ->
  exists e, DataView_set buf i bytes = Throw e.
Proof.
  intros H; unfold DataView_set.
  apply Nat.ltb_lt in H; rewrite H; eauto.
Qed.

Lemma Uint8Array_set_overflow (buf : list byte) (i : nat) (bytes : list byte) :
  (List.length buf < i + List.length bytes)%nat ->
  exists e, Uint8Array_set buf i bytes = Throw e.
Proof.
  intros H; unfold Uint8Array_set.
  destruct (List.length buf <? i)%nat eqn:E1; [eauto|].
  apply Nat.ltb_ge in E1.
  assert (E2 : (List.length buf - i <? List.length bytes)%nat = true)
    by (apply Nat.ltb_lt; lia).
  rewrite E2; eauto.
Qed.

Lemma DataView_set_Return (buf : list byte) (i : nat) (bytes buf' : list byte) :
  DataView_set buf i bytes = Return buf' ->
  (i + List.length bytes <= List.length buf)%nat /\ buf' = store buf i bytes.
Proof.
  unfold DataView_set.
  destruct (List.length buf <? i + List.length bytes)%nat eqn:E; [discriminate|].
  apply Nat.ltb_ge in E; intros [= <-]; auto.
Qed.

Lemma Uint8Array_set_Return (buf : list byte) (i : nat) (bytes buf' : list byte) :
  Uint8Array_set buf i bytes = Return buf' ->
  (i + List.length bytes <= List.length buf)%nat /\ buf' = store buf i bytes.
Proof.
  unfold Uint8Array_set.
  destruct (List.length buf <? i)%nat eqn:E1; [discriminate|].
  destruct (List.length buf - i <? List.length bytes)%nat eqn:E2; [discriminate|].
  apply Nat.ltb_ge in E1, E2; intros [= <-]; split; [lia|reflexivity].
Qed.

Lemma payload_length (op : WriteOp) : List.length (payload op) = width op.
Proof. destruct op; simpl; try apply encode_uint_length; reflexivity. Qed.

(** A write that returns stayed inside the buffer, stored exactly its
    encoding at the cursor, and advanced the cursor by its width. *)
Lemma apply_Return (op : WriteOp) (b b' : t) :
  apply op b = Return b' ->
  (offset b + width op <= byteLength b)%nat
  /\ buffer b' = store (buffer b) (offset b) (payload op)
  /\ offset b' = (offset b + width op)%nat.
Proof.
  rewrite <- payload_length.
  destruct op; simpl;
    unfold writeUint8, writeUint16, writeUint32, writeFloat32, writeFloat64,
      writeString, writeBytes, advance, byteLength.
  1-5: match goal with
       | |- context [DataView_set ?a ?i ?c] =>
           destruct (DataView_set a i c) eqn:E; [|discriminate];
           apply DataView_set_Return in E; destruct E as [E1 ->];
           rewrite ?encode_uint_length in *; intros [= <-]; simpl; auto
       end.
  - destruct (encoding_rejected encoding); [discriminate|].
    destruct (Uint8Array_set (buffer b) (offset b) (encode str)) eqn:E; [|discriminate].
    apply Uint8Array_set_Return in E; destruct E as [E1 ->].
    intros [= <-]; simpl; auto.
  - destruct (Uint8Array_set (buffer b) (offset b) bytes) eqn:E; [|discriminate].
    apply Uint8Array_set_Return in E; destruct E as [E1 ->].
    intros [= <-]; simpl; auto.
Qed.

Lemma apply_keeps_capacity (op : WriteOp) (b b' : t) :
  apply op b = Return b' -> byteLength b' = byteLength b.
Proof.
  intros H; apply apply_Return in H; destruct H as (Hle & Hbuf & _).
  unfold byteLength; rewrite Hbuf; apply store_length.
  now rewrite payload_length.
Qed.

Lemma apply_all_keeps_capacity (ops : list WriteOp) (b : t) :
  byteLength (apply_all ops b) = byteLength b.
Proof.
  revert b; induction ops as [|op ops IH]; intros b; simpl; [reflexivity|].
  destruct (apply op b) eqn:E.
  - rewrite IH; eapply apply_keeps_capacity; eauto.
  - apply IH.
Qed.

Lemma apply_overflow (op : WriteOp) (b : t) :
  (byteLength b < offset b + width op)%nat -> exists e, apply op b = Throw e.
Proof.
  intros H; destruct (apply op b) eqn:E; [|eauto].
  apply apply_Return in E; destruct E as (E1 & _); lia.
Qed.

Lemma new_capacity (size : nat) : byteLength (new size) = size.
Proof. unfold byteLength, new; simpl; apply repeat_length. Qed.

(** C9. Every write operation (writeUint8/16/32, writeFloat32/64,
    writeString, writeBytes) whose encoded width would move the cursor
    past the capacity of the buffer raises an error and leaves the
    builder untouched; and whatever sequence of writes is applied to a
    builder, failing or not, the capacity of its buffer stays what it
    was. *)
Theorem write_past_capacity_raises (b : t) (op : WriteOp) :
  (byteLength b < offset b + width op)%nat ->
  (exists e, apply op b = Throw e)
  /\ apply_all [op] b = b
  /\ (forall ops, byteLength (apply_all ops b) = byteLength b).
Proof.
  intros H; destruct (apply_overflow op b H) as [e He].
  split; [eauto|split].
  - simpl; now rewrite He.
  - intros ops; apply apply_all_keeps_capacity.
Qed.

Lemma write_past_capacity_raises_witness :
  (exists e, apply (OpUint32 3735928559 true) (new 2) = Throw e)
  /\ apply_all [OpUint32 3735928559 true] (new 2) = new 2
  /\ (forall ops, byteLength (apply_all ops (new 2)) = byteLength (new 2)).
Proof.
  apply (write_past_capacity_raises (new 2) (OpUint32 3735928559 true)).
  unfold byteLength; simpl; lia.
Defined.

End BuilderFacts.

(** ** The init count: one teardown, at the last release *)

Module EngineInitFacts.
Import EngineInit.

Lemma live_le_length (l : list ENetWrapper) : (live l <= List.length l)%nat.
Proof. unfold live; apply filter_length_le. Qed.

Lemma update_nth_length (i : nat) (w : ENetWrapper) (l : list ENetWrapper) :
  List.length (update_nth i w l) = List.length l.
Proof.
  revert i; induction l as [|x l IH]; intros [|i]; simpl; auto.
Qed.

Lemma live_update_nth (i : nat) (w w' : ENetWrapper) (l : list ENetWrapper) :
  nth_error l i = Some w ->
  (live (update_nth i w' l) + b2n (initialized w)
   = live l + b2n (initialized w'))%nat.
Proof.
  unfold live; revert i; induction l as [|x l IH]; intros [|i]; simpl; try discriminate.
  - intros [= ->]. destruct (initialized w), (initialized w'); simpl; lia.
  - intros H; specialize (IH _ H).
    destruct (initialized x); simpl; lia.
Qed.

Lemma live_app_fresh (l : list ENetWrapper) :
  live (l ++ [mkWrapper false false]) = live l.
Proof. unfold live; rewrite filter_app, length_app; simpl; lia. Qed.

Lemma uint32_small (z : Z) : 0 <= z < 2 ^ 32 -> uint32 z = z.
Proof. intros H; unfold uint32; now apply Z.mod_small. Qed.

Lemma protocol_app (up : bool) (cs1 cs2 : list EngineCall) :
  protocol up (cs1 ++ cs2)
  = match protocol up cs1 with
    | Some up' => protocol up' cs2
    | None => None
    end.
Proof.
  revert up; induction cs1 as [|c cs1 IH]; intros up; simpl; [reflexivity|].
  destruct c; try apply IH; destruct up; auto.
Qed.

Lemma no_return_to_zero (g : Z) : (0 <? g) && (g =? 0) = false.
Proof.
  destruct (0 <? g) eqn:E; simpl; [|reflexivity].
  apply Z.ltb_lt in E; apply Z.eqb_neq; lia.
Qed.

(** Closes the side goals of [step_counted]: arithmetic, and membership
    of an init call in an explicit list of calls. *)
Ltac in_calls :=
  let H := fresh "H" in
  intros ? H; simpl in H;
  repeat (destruct H as [H|H]; [try discriminate H; injection H as <-|]);
  try contradiction; split; (reflexivity || lia).

Ltac side :=
  unfold count_calls; simpl; rewrite ?no_return_to_zero;
  change (uint32 0) with 0 in *;
  solve [ reflexivity | assumption | lia | in_calls ].

(** The four parts of [step_counted], the second being [step_ok]. *)
Ltac parts := refine (conj _ (conj (conj _ (conj _ _)) (conj _ _))).

(** One step from a counted state. *)
Lemma step_counted (op : Op) (p : Process) :
  counted p ->
  Z.of_nat (List.length (wrappers p)) < 2 ^ 32 ->
  counted (fst (step op p))
  /\ step_ok (mkObserved (g_enetInitCount p) (snd (step op p))
                (g_enetInitCount (fst (step op p))))
  /\ protocol (0 <? g_enetInitCount p) (snd (step op p))
     = Some (0 <? g_enetInitCount (fst (step op p)))
  /\ (List.length (wrappers (fst (step op p)))
      <= List.length (wrappers p) + (match op with NewENet => 1 | _ => 0 end))%nat.
Proof.
  unfold counted, step_ok; intros Hc Hb.
  pose proof (live_le_length (wrappers p)) as Hle.
  destruct op as [|i enet_ok|i]; simpl.
  - (* new enet.ENet() *)
    rewrite live_app_fresh, length_app; simpl.
    parts; side.
  - (* initialize() *)
    destruct (nth_error (wrappers p) i) as [w|] eqn:Hn; simpl;
      [|parts; side].
    unfold Initialize, fetch_add, fetch_sub.
    destruct (initialized w) eqn:Hi; simpl.
    + pose proof (@live_update_nth i w (w) _ Hn) as Hl.
      rewrite update_nth_length.
      parts; side.
    + pose proof (@live_update_nth i w (mkWrapper (host w) true) _ Hn) as Hl.
      pose proof (@live_update_nth i w (w) _ Hn) as Hl0.
      pose proof (live_le_length (update_nth i (mkWrapper (host w) true) (wrappers p))) as Hle'.
      rewrite update_nth_length in Hle'.
      rewrite Hi in Hl; simpl in Hl.
      assert (Hsmall : uint32 (g_enetInitCount p + 1) = g_enetInitCount p + 1)
        by (apply uint32_small; lia).
      destruct (g_enetInitCount p =? 0) eqn:E0.
      * apply Z.eqb_eq in E0.
        destruct enet_ok; simpl; rewrite ?update_nth_length, Hsmall, E0; simpl;
          parts; side.
      * apply Z.eqb_neq in E0; simpl; rewrite update_nth_length, Hsmall.
        assert (Hpos : (0 <? g_enetInitCount p) = true) by (apply Z.ltb_lt; lia).
        assert (Hpos' : (0 <? g_enetInitCount p + 1) = true) by (apply Z.ltb_lt; lia).
        assert (Hnz : (g_enetInitCount p + 1 =? 0) = false) by (apply Z.eqb_neq; lia).
        rewrite Hpos, Hpos', Hnz; simpl.
        parts; side.
  - (* deinitialize() *)
    destruct (nth_error (wrappers p) i) as [w|] eqn:Hn; simpl;
      [|parts; side].
    unfold Deinitialize, fetch_sub.
    pose proof (@live_update_nth i w (mkWrapper false false) _ Hn) as Hl.
    destruct (initialized w) eqn:Hi; simpl in *; rewrite update_nth_length.
    + assert (Hsmall : uint32 (g_enetInitCount p - 1) = g_enetInitCount p - 1)
        by (apply uint32_small; lia).
      rewrite Hsmall.
      assert (Hpos : (0 <? g_enetInitCount p) = true) by (apply Z.ltb_lt; lia).
      rewrite Hpos.
      destruct (g_enetInitCount p =? 1) eqn:E1.
      * apply Z.eqb_eq in E1; rewrite E1; simpl.
        destruct (host w); parts; side.
      * apply Z.eqb_neq in E1.
        assert (Hnz : (g_enetInitCount p - 1 =? 0) = false) by (apply Z.eqb_neq; lia).
        assert (Hpos' : (0 <? g_enetInitCount p - 1) = true) by (apply Z.ltb_lt; lia).
        rewrite Hnz, Hpos'.
        destruct (host w); parts; side.
    + destruct (host w); parts; side.
Qed.

(** Any run from a counted state with room left in the counter. *)
Lemma run_counted (ops : list Op) :
  forall p : Process,
    counted p ->
    Z.of_nat (List.length (wrappers p) + List.length ops) < 2 ^ 32 ->
    Forall step_ok (fst (run ops p))
    /\ protocol (0 <? g_enetInitCount p) (all_calls (fst (run ops p)))
       = Some (0 <? g_enetInitCount (snd (run ops p)))
    /\ counted (snd (run ops p)).
Proof.
  induction ops as [|op ops IH]; intros p Hc Hb; simpl.
  - repeat split; auto.
  - assert (Hb0 : Z.of_nat (List.length (wrappers p)) < 2 ^ 32) by lia.
    destruct (step_counted op Hc Hb0) as (Hc' & Hok & Hpr & Hlen).
    destruct (step op p) as [p' cs] eqn:Es; simpl in *.
    assert (Hb' : Z.of_nat (List.length (wrappers p') + List.length ops) < 2 ^ 32)
      by (destruct op; lia).
    destruct (IH p' Hc' Hb') as (Hall & Hpr' & Hc'').
    split; [constructor; assumption|split; [|assumption]].
    unfold all_calls in *; simpl.
    rewrite protocol_app, Hpr; exact Hpr'.
Qed.

(** C3. In every sequence of [new enet.ENet()], [initialize()] and
    [deinitialize()] calls of one process (fewer than 2^32 of them, the
    counter being a [uint32_t]):
    - a call makes [enet_deinitialize] run once when it takes the count
      from a positive value to zero, and not at all otherwise;
    - [enet_initialize] runs at most once in a call, and only when the
      count is zero before it; the count is one afterwards if the
      library initialised, zero if it failed;
    - along the whole run the library is never initialised twice without
      a teardown in between nor torn down while down, and at the end it
      is up exactly when the count is positive. *)
Theorem teardown_exactly_at_zero (ops : list Op) :
  Z.of_nat (List.length ops) < 2 ^ 32 ->
  Forall step_ok (fst (run ops start))
  /\ protocol false (all_calls (fst (run ops start)))
     = Some (0 <? g_enetInitCount (snd (run ops start))).
Proof.
  intros Hb.
  destruct (@run_counted ops start) as (H1 & H2 & _); auto.
  reflexivity.
Qed.

Lemma teardown_exactly_at_zero_witness :
  Forall step_ok (fst (run two_sessions start))
  /\ protocol false (all_calls (fst (run two_sessions start)))
     = Some (0 <? g_enetInitCount (snd (run two_sessions start))).
Proof.
  apply (teardown_exactly_at_zero two_sessions).
  simpl; lia.
Defined.

Example two_sessions_calls :
  all_calls (fst (run two_sessions start)) = [enet_initialize true; enet_deinitialize]
  /\ map count_after (fst (run two_sessions start)) = [0; 0; 1; 2; 1; 0].
Proof. split; reflexivity. Qed.

End EngineInitFacts.

(** ** The event bus leaves the core of a session alone *)

Lemma core_off (ev : EventName) (cb : Callback) (s : Session) :
  core (off ev cb s) = core s.
Proof. unfold off; destruct (get_list ev (eventCallbacks s)); reflexivity. Qed.

Lemma core_run_callback (cb : Callback) (data : Payload) :
  forall s, core (run_callback cb data s) = core s.
Proof.
  induction cb as [id|id ev inner IH|k]; intros s; simpl.
  - reflexivity.
  - rewrite IH; apply core_off.
  - destruct (matches_serverPeer data s); [|reflexivity].
    unfold resolve; simpl.
    change (core (off connect (OnConnected k) (clearTimeout k s)) = core s).
    now rewrite core_off.
Qed.

Lemma core_forEach_from (n : nat) (ev : EventName) (data : Payload) :
  forall k s, core (forEach_from n k ev data s) = core s.
Proof.
  induction n as [|n IH]; intros k s; simpl; [reflexivity|].
  rewrite IH.
  destruct (get_list ev (eventCallbacks s)) as [l|]; [|reflexivity].
  destruct (nth_error l k); [apply core_run_callback|reflexivity].
Qed.

(** [emit] adds one publication (when the event has a subscriber list)
    and changes nothing else of the core. *)
Lemma core_emit (ev : EventName) (data : Payload) (s : Session) :
  core (emit ev data s)
  = (native s, peers s, running s, hostCreated s, config s, serverPeer s,
     variant s, engine_log s,
     match get_list ev (eventCallbacks s) with
     | Some _ => emitted s ++ [(ev, data)]
     | None => emitted s
     end).
Proof.
  unfold emit; destruct (get_list ev (eventCallbacks s)) as [l|] eqn:E; [|reflexivity].
  now rewrite core_forEach_from.
Qed.

Lemma core_inv (s s' : Session) :
  core s' = core s ->
  native s' = native s /\ peers s' = peers s /\ running s' = running s
  /\ hostCreated s' = hostCreated s /\ config s' = config s
  /\ serverPeer s' = serverPeer s /\ variant s' = variant s
  /\ engine_log s' = engine_log s /\ emitted s' = emitted s.
Proof. unfold core; intros [= -> -> -> -> -> -> -> -> ->]; repeat split. Qed.

Lemma base_list (ev : EventName) (c : Callbacks) :
  ev <> ready -> exists l, get_list ev c = Some l.
Proof. destruct ev; simpl; eauto; congruence. Qed.

Lemma peers_emit (ev : EventName) (data : Payload) (s : Session) :
  peers (emit ev data s) = peers s.
Proof. pose proof (core_emit ev data s) as H; unfold core in H; congruence. Qed.

Lemma engine_log_emit (ev : EventName) (data : Payload) (s : Session) :
  engine_log (emit ev data s) = engine_log s.
Proof. pose proof (core_emit ev data s) as H; unfold core in H; congruence. Qed.

Lemma emitted_emit (ev : EventName) (data : Payload) (s : Session) :
  ev <> ready -> emitted (emit ev data s) = emitted s ++ [(ev, data)].
Proof.
  intros Hev; pose proof (core_emit ev data s) as H; unfold core in H.
  destruct (base_list (eventCallbacks s) Hev) as [l Hl]; rewrite Hl in H.
  congruence.
Qed.

Lemma serverPeer_emit (ev : EventName) (data : Payload) (s : Session) :
  serverPeer (emit ev data s) = serverPeer s.
Proof. pose proof (core_emit ev data s) as H; unfold core in H; congruence. Qed.

Lemma hostCreated_emit (ev : EventName) (data : Payload) (s : Session) :
  hostCreated (emit ev data s) = hostCreated s.
Proof. pose proof (core_emit ev data s) as H; unfold core in H; congruence. Qed.

(** Application handlers only: each one is called once, in order. *)
Lemma forEach_user_handlers (ev : EventName) (data : Payload) (ids : list nat) :
  forall (n k : nat) (s : Session),
    get_list ev (eventCallbacks s) = Some (map UserCb ids) ->
    delivered (forEach_from n k ev data s)
    = delivered s ++ map (fun id => (id, data)) (firstn n (skipn k ids)).
Proof.
  induction n as [|n IH]; intros k s Hl; simpl.
  - now rewrite app_nil_r.
  - rewrite Hl, nth_error_map.
    destruct (nth_error ids k) as [id|] eqn:Hk; simpl.
    + rewrite IH by exact Hl; simpl.
      rewrite <- app_assoc; f_equal.
      assert (Hs : skipn k ids = id :: skipn (S k) ids).
      { clear -Hk; revert k Hk; induction ids as [|x ids IHi]; intros [|k] Hk;
          simpl in *; try discriminate.
        - now injection Hk as ->.
        - now apply IHi. }
      rewrite Hs; reflexivity.
    + rewrite IH by exact Hl.
      apply nth_error_None in Hk.
      rewrite !skipn_all2 by lia. now rewrite !firstn_nil.
Qed.

Lemma emit_user_handlers (ev : EventName) (data : Payload) (ids : list nat) (s : Session) :
  get_list ev (eventCallbacks s) = Some (map UserCb ids) ->
  delivered (emit ev data s) = delivered s ++ map (fun id => (id, data)) ids.
Proof.
  intros Hl; unfold emit; rewrite Hl.
  rewrite forEach_user_handlers with (ids := ids) by exact Hl.
  simpl; rewrite length_map, firstn_all; reflexivity.
Qed.

(** ** The registry as a map *)

Lemma map_get_set_same (k : PeerId) (v : PeerRecord) (m : PeerMap) :
  map_get k (map_set k v m) = Some v.
Proof.
  induction m as [|[k' v'] m IH]; simpl.
  - now rewrite Z.eqb_refl.
  - destruct (k =? k') eqn:E; simpl; rewrite E; auto.
Qed.





Lemma map_set_absent (k : PeerId) (v : PeerRecord) (m : PeerMap) :
  map_get k m = None -> map_set k v m = m ++ [(k, v)].
Proof.
  induction m as [|[k' v'] m IH]; simpl; [reflexivity|].
  destruct (k =? k'); [discriminate|]. intros H; now rewrite IH.
Qed.


Lemma map_delete_absent (k : PeerId) (m : PeerMap) :
  map_get k m = None -> map_delete k m = m.
Proof.
  induction m as [|[k' v'] m IH]; simpl; [reflexivity|].
  destruct (k =? k'); [discriminate|]. intros H; now rewrite IH.
Qed.

(** ** [handleEvent]: the event state machine *)





(** ** [service]: from the poll to [handleEvent] *)

Lemma handleEvent_returns (e : ENetEvent) (s : Session) :
  fst (handleEvent e s) = Return tt.
Proof. destruct e; reflexivity. Qed.

(** An event found by the poll is handed to [handleEvent] and returned
    to the caller as well. *)
Lemma service_hands_event_over (timeout : Z) (e : ENetEvent) (s : Session) :
  hostCreated s = true ->
  host (native s) = true ->
  service timeout (HsEvent e) s
  = (Return (Some e),
     snd (handleEvent e
            (log_calls (enet_host_service (uint32 timeout) :: release_packet e) s))).
Proof.
  intros Hc Hh.
  unfold service, bind, get, lift_native, native_hostService, ret; simpl.
  rewrite Hc; simpl. rewrite Hh; simpl.
  pose proof (handleEvent_returns e
                (log_calls (enet_host_service (uint32 timeout) :: release_packet e) s)) as Hr.
  destruct (handleEvent e
              (log_calls (enet_host_service (uint32 timeout) :: release_packet e) s)) as [c s'].
  simpl in Hr; subst c; reflexivity.
Qed.

(** Before the host exists [service] is a no-op. *)
Lemma service_without_host (timeout : Z) (ans : ServiceAnswer) (s : Session) :
  hostCreated s = false -> service timeout ans s = (Return None, s).
Proof.
  intros Hc; unfold service, bind, get, ret; simpl; now rewrite Hc.
Qed.

(** ** [send]: what comes back and what is published *)

Lemma ENetBase_send_spec (peerId : PeerId) (ch : Z) (data : JsData) (reliable : bool)
    (ans : SendAnswer) (s : Session) :
  let r := native_sendPacket peerId ch data (if reliable then 1 else 0) ans in
  fst (ENetBase_send peerId ch data reliable ans s)
    = Return (match fst r with Return z => z | Throw _ => -1 end)
  /\ engine_log (snd (ENetBase_send peerId ch data reliable ans s))
     = engine_log s ++ snd r
  /\ emitted (snd (ENetBase_send peerId ch data reliable ans s))
     = emitted s ++ send_errors peerId ch data reliable ans
  /\ peers (snd (ENetBase_send peerId ch data reliable ans s)) = peers s.
Proof.
  unfold ENetBase_send, send_errors, try_catch, lift_native, bind, modify; simpl.
  destruct (native_sendPacket peerId ch data (if reliable then 1 else 0) ans)
    as [[z|e] cs]; simpl.
  - now rewrite app_nil_r.
  - rewrite engine_log_emit, emitted_emit, peers_emit by discriminate.
    repeat split.
Qed.







(** ** [broadcast] *)

Lemma ENetBase_send_returns (peerId : PeerId) (ch : Z) (data : JsData) (reliable : bool)
    (ans : SendAnswer) (s : Session) :
  exists z, fst (ENetBase_send peerId ch data reliable ans s) = Return z.
Proof. destruct (ENetBase_send_spec peerId ch data reliable ans s) as [H _]; eauto. Qed.






(** ** [Client]: calls made while [serverPeer] is unset *)

Lemma serverPeer_unset_falsy (s : Session) :
  serverPeer s = None -> serverPeer_truthy s = false.
Proof. unfold serverPeer_truthy; now intros ->. Qed.

Lemma Client_send_unset (s : Session) (ch : Z) (data : JsData) (reliable : bool)
    (ans : SendAnswer) :
  serverPeer s = None ->
  Client_send ch data reliable ans s
  = (Return (-1), emit error (PError (Error "Not connected to server")) s).
Proof.
  intros Hn; unfold Client_send, bind, get, modify, ret; simpl; now rewrite Hn.
Qed.

Lemma Client_sendRawPacket_unset (s : Session) (ch : Z) (data : JsData) (flags : Z)
    (ans : SendAnswer) :
  serverPeer s = None ->
  Client_sendRawPacket ch data flags ans s
  = (Return (-1), emit error (PError (Error "Not connected to server")) s).
Proof.
  intros Hn; unfold Client_sendRawPacket, bind, get, modify, ret; simpl; now rewrite Hn.
Qed.

(** C7, as the code has it. While [serverPeer] is [null], the
    instance-level [send] and [sendRawPacket] return -1 and publish the
    error 'Not connected to server' on [error] (and do nothing else);
    the instance-level [disconnect], [disconnectNow] and
    [disconnectLater] return without any effect at all: nothing is
    published and the session is unchanged. *)
Theorem client_calls_without_serverPeer (s : Session) (ch : Z) (data : JsData)
    (reliable : bool) (flags d : Z) (ans : SendAnswer) (k : DisconnectKind) :
  serverPeer s = None ->
  let err := PError (Error "Not connected to server") in
  Client_send ch data reliable ans s = (Return (-1), emit error err s)
  /\ Client_sendRawPacket ch data flags ans s = (Return (-1), emit error err s)
  /\ emitted (emit error err s) = emitted s ++ [(error, err)]
  /\ engine_log (emit error err s) = engine_log s
  /\ Client_disconnect_kind k d s = (Return tt, s).
Proof.
  intros Hn err.
  rewrite Client_send_unset, Client_sendRawPacket_unset by exact Hn.
  rewrite emitted_emit, engine_log_emit by discriminate.
  repeat split.
  destruct k; simpl;
    unfold Client_disconnect, Client_disconnectNow, Client_disconnectLater,
      Client_disconnect_with, bind, get, ret; simpl; now rewrite Hn.
Qed.

Lemma client_calls_without_serverPeer_witness :
  serverPeer (fresh_client CJS) = None
  /\ Client_send 0 (JsString "hi") true (mkSendAnswer true 0) (fresh_client CJS)
     = (Return (-1),
        emit error (PError (Error "Not connected to server")) (fresh_client CJS))
  /\ Client_disconnect_kind Graceful 0 (fresh_client CJS) = (Return tt, fresh_client CJS).
Proof.
  split; [reflexivity|].
  destruct (@client_calls_without_serverPeer (fresh_client CJS) 0 (JsString "hi") true
              1 0 (mkSendAnswer true 0) Graceful eq_refl)
    as (H1 & _ & _ & _ & H5).
  split; [exact H1|exact H5].
Defined.

(** C7 as stated fails for the disconnects: on a fresh client
    ([serverPeer] is [null]) [disconnect()] publishes nothing and
    changes nothing. *)
Lemma client_disconnect_unset_is_silent :
  serverPeer (fresh_client CJS) = None
  /\ snd (Client_disconnect 0 (fresh_client CJS)) = fresh_client CJS
  /\ ~ (exists e, In (error, e) (emitted (snd (Client_disconnect 0 (fresh_client CJS))))).
Proof.
  vm_compute. repeat split. intros [e []].
Qed.

(** ** Disconnect, then send *)





(** ** Host creation and the toggles *)

(** [setupHost] on a wrapper that has a host. *)
Lemma setupHost_with_host (cfg : Config) (isServer : bool) (s : Session) :
  host (native s) = true ->
  setupHost cfg isServer s
  = (Return tt, log_calls (setup_calls (variant s) cfg isServer) s).
Proof.
  intros Hh.
  unfold setupHost, setup_calls, toggle, bind, get, lift_native,
    native_setCompression, native_setChecksum, native_setNewPacket, ret; simpl.
  rewrite Hh; simpl.
  destruct (truthy (usingNewPacket cfg) || truthy (usingNewPacketForServer cfg)); simpl;
    unfold log_calls; simpl; rewrite <- ?app_assoc; simpl;
    destruct s; simpl; rewrite ?app_nil_r; reflexivity.
Qed.

(** C8, as the code has it. When the library creates the host,
    [createClient] and [createServer] (the port being free and the
    address parsed) return normally with [hostCreated] set, and the
    calls into the library are, in this order: the destruction of a
    previous host if there was one, [enet_host_create], then the
    compression toggle, the checksum toggle and, exactly when
    [usingNewPacket] or [usingNewPacketForServer] is set in the config,
    the new-packet flag (set to 1 on the server or the client side of
    the host).  The two toggles are the booleans of the config in the
    CommonJS module and are both [true] in the ES module. *)
Theorem host_creation_applies_toggles (s : Session) (ans : HostAnswer) :
  initialized (native s) = true ->
  host_created ans = true ->
  address_ok ans = true ->
  let cfg := config s in
  let pre := if host (native s) then [enet_host_destroy] else [] in
  let c := createClient ans s in
  let sv := createServer true ans s in
  (fst c = Return tt
   /\ hostCreated (snd c) = true
   /\ engine_log (snd c)
      = engine_log s ++ pre
        ++ [enet_host_create false (uint32 1) (uint32 (channelLimit cfg))
              (uint32 (incomingBandwidth cfg)) (uint32 (outgoingBandwidth cfg))]
        ++ setup_calls (variant s) cfg false)
  /\ (fst sv = Return true
      /\ hostCreated (snd sv) = true
      /\ engine_log (snd sv)
         = engine_log s ++ pre
           ++ [enet_host_create true (uint32 (opt_num (maxPeer cfg)))
                 (uint32 (channelLimit cfg))
                 (uint32 (incomingBandwidth cfg)) (uint32 (outgoingBandwidth cfg))]
           ++ setup_calls (variant s) cfg true).
Proof.
  intros Hi Hc Ha cfg pre c sv; subst c sv.
  cbv [createClient createServer try_catch bind get modify lift_native ret throw
       native_createHost].
  simpl; rewrite Hi, Hc, Ha; simpl.
  rewrite !setupHost_with_host by reflexivity; simpl.
  fold cfg; fold pre.
  rewrite <- !app_assoc. repeat split.
Qed.

(** A creation that fails does not mark the host ready. *)
Lemma creation_failure_keeps_flag (s : Session) (ans : HostAnswer) (avail : bool) :
  (forall e, fst (createClient ans s) = Throw e ->
             hostCreated (snd (createClient ans s)) = hostCreated s)
  /\ (forall e, fst (createServer avail ans s) = Throw e ->
                hostCreated (snd (createServer avail ans s)) = hostCreated s).
Proof.
  split; intros e;
    cbv [createClient createServer try_catch bind get modify lift_native ret throw
         native_createHost];
    simpl.
  - destruct (initialized (native s)) eqn:Hi; simpl;
      [|intros _; now rewrite hostCreated_emit].
    destruct (host_created ans) eqn:Hc; simpl;
      [|intros _; now rewrite hostCreated_emit].
    rewrite setupHost_with_host by reflexivity; simpl. discriminate.
  - destruct avail; simpl; [|intros _; now rewrite !hostCreated_emit].
    destruct (initialized (native s)) eqn:Hi; simpl;
      [|intros _; now rewrite hostCreated_emit].
    destruct (address_ok ans) eqn:Ha; simpl;
      [|intros _; now rewrite hostCreated_emit].
    destruct (host_created ans) eqn:Hc; simpl;
      [|intros _; now rewrite hostCreated_emit].
    rewrite setupHost_with_host by reflexivity; simpl. discriminate.
Qed.

Lemma host_creation_applies_toggles_witness :
  initialized (native (plain_client CJS)) = true
  /\ host_created host_ok = true
  /\ address_ok host_ok = true
  /\ engine_log (snd (createClient host_ok (plain_client CJS)))
     = [enet_host_create false 1 2 0 0; enet_host_compress_NULL; set_host_checksum false].
Proof.
  repeat (split; [reflexivity|]).
  destruct (@host_creation_applies_toggles (plain_client CJS) host_ok
              eq_refl eq_refl eq_refl) as [(_ & _ & H) _].
  exact H.
Defined.

(** C8 as stated fails in the ES module: a client created with
    [checksum: false, compression: false] records neither option in its
    config, and the library is told to switch both on. *)
Lemma esm_toggles_ignore_the_config :
  let r := new_Client ESM plain_options initialized_wrapper host_ok in
  fst r = Return tt
  /\ hostCreated (snd r) = true
  /\ truthy (checksum (config (snd r))) = false
  /\ truthy (compression (config (snd r))) = false
  /\ engine_log (snd r)
     = [enet_host_create false 1 2 0 0; enet_host_compress_with_range_coder;
        set_host_checksum true]
  /\ ~ In (set_host_checksum (truthy (checksum (config (snd r))))) (engine_log (snd r)).
Proof.
  vm_compute. repeat split.
  intros [H|[H|[H|[]]]]; discriminate H.
Qed.

(** ** The polling loop *)

Lemma listen_loop_intervals (pollIntervalMs maxPollIntervalMs : Z) :
  0 <= pollIntervalMs <= maxPollIntervalMs ->
  forall (script : list Tick) (currentInterval : Z) (s : Session),
    pollIntervalMs <= currentInterval <= maxPollIntervalMs ->
    let its := fst (listen_loop pollIntervalMs maxPollIntervalMs currentInterval script s) in
    Forall (in_range pollIntervalMs maxPollIntervalMs) its
    /\ Forall (follows_rule pollIntervalMs maxPollIntervalMs) its
    /\ chained currentInterval its.
Proof.
  intros Hp script; induction script as [|t script IH]; intros cur s Hc; simpl.
  - repeat split; constructor.
  - destruct (running s); simpl; [|repeat split; constructor].
    destruct (service cur (tick_answer t) s) as [[event|err] s1]; simpl.
    + set (next := match event with
                   | Some _ => pollIntervalMs
                   | None => Z.min (cur * 2) maxPollIntervalMs
                   end).
      assert (Hn : pollIntervalMs <= next <= maxPollIntervalMs)
        by (subst next; destruct event; lia).
      destruct (IH next (if tick_stop t then stop s1 else s1) Hn) as (H1 & H2 & H3).
      repeat split.
      * constructor; [unfold in_range; simpl; lia|exact H1].
      * constructor; [|exact H2].
        unfold follows_rule; subst next; destruct event; reflexivity.
      * exact H3.
    + repeat split.
      * constructor; [unfold in_range; simpl; lia|constructor].
      * constructor; [reflexivity|constructor].
Qed.

Lemma chained_next (its : list Iteration) :
  forall (cur : Z) (i : nat) (it1 it2 : Iteration),
    chained cur its ->
    nth_error its i = Some it1 -> nth_error its (S i) = Some it2 ->
    interval_in it2 = interval_out it1.
Proof.
  induction its as [|it its IH]; intros cur [|i] it1 it2 Hc H1 H2;
    simpl in *; try discriminate.
  - injection H1 as <-. destruct its as [|it' its]; [discriminate|].
    simpl in H2; injection H2 as <-. destruct Hc as [_ [Hc _]]; exact Hc.
  - destruct Hc as [_ Hc]; eapply IH; eauto.
Qed.

(** C4, as the code has it. For integer parameters with
    [0 <= pollIntervalMs <= maxPollIntervalMs], in every run of the
    polling loop: [currentInterval] is within
    [[pollIntervalMs, maxPollIntervalMs]] before and after every pass;
    the first pass starts at [pollIntervalMs] and each pass starts
    with the value the previous one left; a pass whose [service()]
    produced an event leaves [pollIntervalMs], a pass without event
    leaves the double capped at [maxPollIntervalMs] (a pass whose
    [service()] throws leaves the value and ends the loop); hence the
    pass after one that produced an event runs with [pollIntervalMs]. *)
Theorem poll_interval_stays_in_range (pollIntervalMs maxPollIntervalMs : Z)
    (script : list Tick) (s : Session) :
  0 <= pollIntervalMs <= maxPollIntervalMs ->
  let its := fst (listen pollIntervalMs maxPollIntervalMs script s) in
  Forall (in_range pollIntervalMs maxPollIntervalMs) its
  /\ Forall (follows_rule pollIntervalMs maxPollIntervalMs) its
  /\ chained pollIntervalMs its
  /\ (forall i it1 it2,
        nth_error its i = Some it1 -> outcome it1 = Produced ->
        nth_error its (S i) = Some it2 -> interval_in it2 = pollIntervalMs).
Proof.
  intros Hp its.
  destruct (@listen_loop_intervals pollIntervalMs maxPollIntervalMs Hp script
              pollIntervalMs (with_running true s)) as (H1 & H2 & H3); [lia|].
  fold (listen pollIntervalMs maxPollIntervalMs script s) in H1, H2, H3.
  fold its in H1, H2, H3.
  repeat split; auto.
  intros i it1 it2 Hi Ho Hi'.
  rewrite (@chained_next its _ i it1 it2 H3 Hi Hi').
  assert (Hr : follows_rule pollIntervalMs maxPollIntervalMs it1).
  { rewrite Forall_forall in H2; apply H2; eapply nth_error_In; eauto. }
  unfold follows_rule in Hr; now rewrite Ho in Hr.
Qed.

Lemma poll_interval_stays_in_range_witness :
  0 <= 2 <= 32
  /\ map interval_in (fst (listen 2 32 burst (fresh_server CJS))) = [2; 4; 8; 2; 4]
  /\ Forall (in_range 2 32) (fst (listen 2 32 burst (fresh_server CJS))).
Proof.
  assert (H : 0 <= 2 <= 32) by lia.
  split; [exact H|split; [vm_compute; reflexivity|]].
  exact (proj1 (@poll_interval_stays_in_range 2 32 burst (fresh_server CJS) H)).
Defined.

(** C4 as stated fails: [listen(64, 32)] starts its first pass with
    [currentInterval = 64], above [maxPollIntervalMs]; and
    [listen(-1, 32)] leaves -2, below [pollIntervalMs]. *)
Lemma poll_interval_out_of_range :
  (exists it, In it (fst (listen 64 32 burst (fresh_server CJS)))
              /\ ~ in_range 64 32 it)
  /\ (exists it, In it (fst (listen (-1) 32 burst (fresh_server CJS)))
                 /\ ~ in_range (-1) 32 it).
Proof.
  split.
  - exists (mkIteration 64 Idle 32); split; [vm_compute; left; reflexivity|].
    unfold in_range; simpl; lia.
  - exists (mkIteration (-1) Idle (-2)); split; [vm_compute; left; reflexivity|].
    unfold in_range; simpl; lia.
Qed.

(** ** [connect] with a timeout: the subscriber and the timer *)

Lemma wrapper_is_not_its_callback (id : nat) (ev : EventName) (cb : Callback) :
  Callback_eqb (OnceWrapped id ev cb) cb = false.
Proof.
  revert id ev; induction cb as [i|i e inner IH|k]; intros id ev; [reflexivity| |reflexivity].
  change (Nat.eqb id i && EventName_eqb ev e && Callback_eqb (OnceWrapped i e inner) inner
          = false).
  rewrite IH; apply andb_false_r.
Qed.

Lemma remove_first_keeps_other (cb w : Callback) (l : list Callback) :
  Callback_eqb w cb = false -> In w l -> In w (remove_first cb l).
Proof.
  intros Hw; induction l as [|x l IH]; simpl; [auto|].
  intros [->|Hin].
  - rewrite Hw; now left.
  - destruct (Callback_eqb x cb); [exact Hin|right; auto].
Qed.

(** Whatever the session, [off(ev, cb)] after [once(ev, cb)] leaves the
    closure that [once] registered in the subscriber list. *)
Lemma off_after_once_misses_wrapper (ev : EventName) (cb : Callback) (s : Session)
    (l : list Callback) :
  get_list ev (eventCallbacks s) = Some l ->
  exists l',
    get_list ev (eventCallbacks (off ev cb (once ev cb s))) = Some l'
    /\ In (OnceWrapped (nextId s) ev cb) l'.
Proof.
  intros Hl; unfold once, on, off; simpl; rewrite Hl; simpl.
  assert (Hs : forall x c, get_list ev (set_list ev x c) = Some x) by (destruct ev; reflexivity).
  rewrite Hs; simpl; rewrite Hs.
  eexists; split; [reflexivity|].
  apply remove_first_keeps_other; [apply wrapper_is_not_its_callback|].
  apply in_or_app; right; now left.
Qed.

(** C1, on the code. [client.connect({timeoutMs: 50})] on a fresh
    client subscribes the closure built by [once] and arms timer 0.
    When the timer expires first, the promise is rejected with 'Connect
    timeout' and the timer is gone, but the one-shot subscriber is
    still in the [connect] list: [off('connect', onConnected)] looks
    for [onConnected], and the list holds the wrapper.  A Connect event
    for the same peer arriving afterwards runs that left-over
    subscriber (which only then removes itself); the promise stays
    rejected. *)
Theorem connect_timeout_leaves_once_subscriber :
  fst connecting = Return (Some 0%nat)
  /\ cb_connect (eventCallbacks (snd connecting)) = [OnceWrapped 1 connect (OnConnected 0)]
  /\ timers (snd connecting) = [0%nat]
  /\ timers timed_out = []
  /\ promises timed_out = [(0%nat, Rejected (Error "Connect timeout"))]
  /\ cb_connect (eventCallbacks timed_out) = [OnceWrapped 1 connect (OnConnected 0)]
  /\ cb_connect (eventCallbacks (snd late_connect)) = []
  /\ promises (snd late_connect) = [(0%nat, Rejected (Error "Connect timeout"))].
Proof. vm_compute. repeat split. Qed.

(** The other outcome of the race: the matching Connect event arrives
    first; the timer is cancelled, the subscriber is gone, the promise
    is fulfilled, and the expiry of the cancelled timer does nothing. *)
Example connect_in_time_cancels_timer :
  timers (snd connected_in_time) = []
  /\ cb_connect (eventCallbacks (snd connected_in_time)) = []
  /\ promises (snd connected_in_time) = [(0%nat, Fulfilled)]
  /\ timer_fires 0 (snd connected_in_time) = snd connected_in_time.
Proof. vm_compute. repeat split. Qed.

(** * Further properties of the code *)

(** ** The event bus: [on], [off], [once], [emit] *)

Lemma Callback_eqb_refl (a : Callback) : Callback_eqb a a = true.
Proof.
  induction a as [i|i e inner IH|k]; simpl.
  - apply Nat.eqb_refl.
  - rewrite Nat.eqb_refl, IH; destruct e; reflexivity.
  - apply Nat.eqb_refl.
Qed.

Lemma Callback_eqb_eq (a b : Callback) : Callback_eqb a b = true -> a = b.
Proof.
  revert b; induction a as [i|i e inner IH|k]; intros [j|j e' g|j]; simpl;
    try discriminate.
  - intros H; apply Nat.eqb_eq in H; now subst.
  - intros H. apply andb_prop in H; destruct H as [H Hg].
    apply andb_prop in H; destruct H as [Hi He].
    apply Nat.eqb_eq in Hi; apply IH in Hg; subst.
    destruct e, e'; try discriminate; reflexivity.
  - intros H; apply Nat.eqb_eq in H; now subst.
Qed.

Lemma remove_first_absent (cb : Callback) (l : list Callback) :
  ~ In cb l -> remove_first cb (l ++ [cb]) = l.
Proof.
  induction l as [|x l IH]; simpl; intros Hn.
  - now rewrite Callback_eqb_refl.
  - destruct (Callback_eqb x cb) eqn:E.
    + apply Callback_eqb_eq in E; subst; tauto.
    + rewrite IH; tauto.
Qed.

Lemma get_set_list (ev : EventName) (l : list Callback) (c : Callbacks) :
  get_list ev (set_list ev l c) = Some l.
Proof. destruct ev; reflexivity. Qed.

Lemma set_set_list (ev : EventName) (l l' : list Callback) (c : Callbacks) :
  set_list ev l (set_list ev l' c) = set_list ev l c.
Proof. destruct ev; reflexivity. Qed.

Lemma set_list_same (ev : EventName) (l : list Callback) (c : Callbacks) :
  get_list ev c = Some l -> set_list ev l c = c.
Proof. destruct ev, c; simpl; congruence. Qed.

Lemma with_eventCallbacks_same (s : Session) : with_eventCallbacks (eventCallbacks s) s = s.
Proof. destruct s; reflexivity. Qed.

(** [off(ev, cb)] right after [on(ev, cb)] gives the session back when
    [cb] was not subscribed to [ev] before; an event name without a
    subscriber list makes both calls no-ops. *)
Theorem off_after_on (ev : EventName) (cb : Callback) (s : Session) :
  (forall l, get_list ev (eventCallbacks s) = Some l -> ~ In cb l) ->
  off ev cb (on ev cb s) = s.
Proof.
  intros Hn; unfold on.
  destruct (get_list ev (eventCallbacks s)) as [l|] eqn:Hl.
  - specialize (Hn l eq_refl).
    unfold off; simpl.
    rewrite get_set_list, set_set_list, remove_first_absent by exact Hn.
    rewrite set_list_same by exact Hl.
    destruct s; reflexivity.
  - unfold off; now rewrite Hl.
Qed.

Lemma off_after_on_witness :
  (forall l, get_list connect (eventCallbacks (fresh_server CJS)) = Some l
             -> ~ In (UserCb 7) l)
  /\ off connect (UserCb 7) (on connect (UserCb 7) (fresh_server CJS)) = fresh_server CJS.
Proof.
  assert (H : forall l, get_list connect (eventCallbacks (fresh_server CJS)) = Some l
                        -> ~ In (UserCb 7) l)
    by (intros l [= <-] []).
  split; [exact H|].
  exact (@off_after_on connect (UserCb 7) (fresh_server CJS) H).
Defined.

(** With a callback subscribed twice, [off] removes the older
    subscription and keeps the newer one. *)
Theorem off_removes_oldest (ev : EventName) (cb : Callback) (s : Session)
    (before after : list Callback) :
  get_list ev (eventCallbacks s) = Some (before ++ cb :: after) ->
  ~ In cb before ->
  get_list ev (eventCallbacks (off ev cb s)) = Some (before ++ after).
Proof.
  intros Hl Hn; unfold off; rewrite Hl; simpl; rewrite get_set_list; f_equal.
  clear Hl; induction before as [|x l IH]; simpl.
  - now rewrite Callback_eqb_refl.
  - destruct (Callback_eqb x cb) eqn:E.
    + apply Callback_eqb_eq in E; subst; simpl in Hn; tauto.
    + rewrite IH; [reflexivity|simpl in Hn; tauto].
Qed.

Lemma off_removes_oldest_witness :
  get_list connect (eventCallbacks (on connect (UserCb 7) (on connect (UserCb 7)
                                      (fresh_server CJS))))
    = Some ([] ++ UserCb 7 :: [UserCb 7])
  /\ ~ In (UserCb 7) []
  /\ get_list connect
       (eventCallbacks (off connect (UserCb 7)
          (on connect (UserCb 7) (on connect (UserCb 7) (fresh_server CJS)))))
     = Some ([] ++ [UserCb 7]).
Proof.
  split; [reflexivity|split; [intros []|]].
  apply (@off_removes_oldest connect (UserCb 7) _ [] [UserCb 7]);
    [reflexivity|intros []].
Defined.

Lemma off_after_once_misses_wrapper_witness :
  get_list connect (eventCallbacks (fresh_server CJS)) = Some []
  /\ exists l',
       get_list connect
         (eventCallbacks (off connect (UserCb 7) (once connect (UserCb 7) (fresh_server CJS))))
       = Some l'
       /\ In (OnceWrapped (nextId (fresh_server CJS)) connect (UserCb 7)) l'.
Proof.
  split; [reflexivity|].
  apply (@off_after_once_misses_wrapper connect (UserCb 7) (fresh_server CJS) []).
  reflexivity.
Defined.

Lemma forEach_split (ev : EventName) (data : Payload) (n m : nat) :
  forall (k : nat) (s : Session),
    forEach_from (n + m) k ev data s
    = forEach_from m (k + n) ev data (forEach_from n k ev data s).
Proof.
  induction n as [|n IH]; intros k s; simpl.
  - now rewrite Nat.add_0_r.
  - rewrite IH. now rewrite Nat.add_succ_r.
Qed.

Lemma skipn_nth_cons {A : Type} (l : list A) :
  forall (k : nat) (x : A), nth_error l k = Some x -> skipn k l = x :: skipn (S k) l.
Proof.
  induction l as [|y l IH]; intros [|k] x H; simpl in *; try discriminate.
  - now injection H as ->.
  - now apply IH.
Qed.

(** The passes over a leading block of application handlers: each is
    called, the lists stay as they are. *)
Lemma forEach_user_prefix (ev : EventName) (data : Payload) (ids : list nat)
    (rest : list Callback) (n : nat) :
  forall (k : nat) (s : Session),
    get_list ev (eventCallbacks s) = Some (map UserCb ids ++ rest) ->
    (k + n <= List.length ids)%nat ->
    forEach_from n k ev data s
    = with_delivered (delivered s ++ deliveries (firstn n (skipn k ids)) data) s.
Proof.
  induction n as [|n IH]; intros k s Hl Hk; simpl.
  - unfold deliveries; simpl; rewrite app_nil_r; destruct s; reflexivity.
  - rewrite Hl.
    assert (Hlt : (k < List.length ids)%nat) by lia.
    destruct (nth_error ids k) as [id|] eqn:Hid;
      [|apply nth_error_None in Hid; lia].
    rewrite nth_error_app1 by (rewrite length_map; exact Hlt).
    rewrite nth_error_map, Hid; simpl.
    rewrite IH; [|exact Hl|lia]; simpl.
    rewrite (skipn_nth_cons ids k Hid); simpl.
    unfold deliveries; simpl. rewrite <- app_assoc; reflexivity.
Qed.

Lemma remove_first_after_users (w : Callback) (ids : list nat) (rest : list Callback) :
  (forall id, w <> UserCb id) ->
  remove_first w (map UserCb ids ++ w :: rest) = map UserCb ids ++ rest.
Proof.
  intros Hw; induction ids as [|id ids IH].
  - simpl; now rewrite Callback_eqb_refl.
  - change (remove_first w (UserCb id :: (map UserCb ids ++ w :: rest))
            = UserCb id :: (map UserCb ids ++ rest)).
    cbn [remove_first].
    destruct (Callback_eqb (UserCb id) w) eqn:E.
    + apply Callback_eqb_eq in E; symmetry in E; now apply Hw in E.
    + now rewrite IH.
Qed.

(** The emission that reaches a once-subscriber placed after [ids] and
    before [rest]: the handlers [ids] and the once-subscriber's handler
    [a] are called, the wrapper leaves the list; what happens to [rest]
    is left to the caller through [n], the passes still to make. *)
Lemma forEach_reaches_once (ev : EventName) (data : Payload) (ids : list nat)
    (i a : nat) (rest : list Callback) (n : nat) (s : Session) :
  get_list ev (eventCallbacks s)
    = Some (map UserCb ids ++ OnceWrapped i ev (UserCb a) :: rest) ->
  forEach_from (List.length ids + S n) 0 ev data s
  = forEach_from n (S (List.length ids)) ev data
      (with_delivered (delivered s ++ deliveries ids data ++ [(a, data)])
         (with_eventCallbacks (set_list ev (map UserCb ids ++ rest) (eventCallbacks s)) s)).
Proof.
  intros Hl.
  rewrite forEach_split; simpl.
  rewrite (@forEach_user_prefix ev data ids _ (List.length ids) 0 s Hl) by lia.
  simpl; rewrite firstn_all.
  rewrite Hl, nth_error_app2 by (rewrite length_map; lia).
  rewrite length_map, Nat.sub_diag; simpl.
  unfold off; simpl; rewrite Hl; simpl.
  rewrite remove_first_after_users by discriminate.
  rewrite <- app_assoc. reflexivity.
Qed.

Lemma on_frame (ev : EventName) (cb : Callback) (s : Session) :
  delivered (on ev cb s) = delivered s /\ emitted (on ev cb s) = emitted s.
Proof. unfold on; destruct (get_list ev (eventCallbacks s)); split; reflexivity. Qed.

Lemma once_frame (ev : EventName) (cb : Callback) (s : Session) :
  delivered (once ev cb s) = delivered s /\ emitted (once ev cb s) = emitted s.
Proof.
  unfold once.
  destruct (on_frame ev (OnceWrapped (nextId s) ev cb) (with_nextId (S (nextId s)) s))
    as [H1 H2].
  split; [rewrite H1|rewrite H2]; reflexivity.
Qed.

Lemma emit_reaches_once (ev : EventName) (data : Payload) (ids : list nat)
    (i a : nat) (rest : list Callback) (s : Session) :
  get_list ev (eventCallbacks s)
    = Some (map UserCb ids ++ OnceWrapped i ev (UserCb a) :: rest) ->
  emit ev data s
  = forEach_from (List.length rest) (S (List.length ids)) ev data
      (with_delivered (delivered s ++ deliveries ids data ++ [(a, data)])
         (with_eventCallbacks (set_list ev (map UserCb ids ++ rest) (eventCallbacks s))
            (with_emitted (emitted s ++ [(ev, data)]) s))).
Proof.
  intros Hl; unfold emit; rewrite Hl.
  rewrite length_app, length_map; simpl.
  now rewrite (@forEach_reaches_once ev data ids i a rest (List.length rest)) by exact Hl.
Qed.

(** A once-subscriber added after the application handlers [ids]
    receives the next emission, after them, and only that one: it has
    left the list when the emission ends, and the emission after that
    goes to [ids] alone. *)
Theorem once_receives_one_emission (ev : EventName) (ids : list nat) (a : nat)
    (d d' : Payload) (s : Session) :
  get_list ev (eventCallbacks s) = Some (map UserCb ids) ->
  let s1 := emit ev d (once ev (UserCb a) s) in
  delivered s1 = delivered s ++ deliveries ids d ++ [(a, d)]
  /\ get_list ev (eventCallbacks s1) = Some (map UserCb ids)
  /\ delivered (emit ev d' s1) = delivered s1 ++ deliveries ids d'.
Proof.
  intros Hl s1.
  assert (Hl1 : get_list ev (eventCallbacks (once ev (UserCb a) s))
                = Some (map UserCb ids ++ OnceWrapped (nextId s) ev (UserCb a) :: [])).
  { unfold once, on; simpl; rewrite Hl; simpl; apply get_set_list. }
  assert (E : s1 = with_delivered (delivered s ++ deliveries ids d ++ [(a, d)])
                     (with_eventCallbacks
                        (set_list ev (map UserCb ids ++ [])
                           (eventCallbacks (once ev (UserCb a) s)))
                        (with_emitted (emitted s ++ [(ev, d)]) (once ev (UserCb a) s)))).
  { subst s1; rewrite (@emit_reaches_once ev d ids _ a [] _ Hl1); simpl.
    destruct (once_frame ev (UserCb a) s) as [-> ->]; reflexivity. }
  assert (Hl2 : get_list ev (eventCallbacks s1) = Some (map UserCb ids)).
  { rewrite E; simpl; rewrite get_set_list, app_nil_r; reflexivity. }
  split; [rewrite E; reflexivity|split; [exact Hl2|]].
  now apply emit_user_handlers.
Qed.

Lemma once_receives_one_emission_witness :
  get_list connect (eventCallbacks (fresh_server CJS)) = Some (map UserCb [])
  /\ delivered (emit connect (PEvent (EvConnect 1000))
                  (once connect (UserCb 5) (fresh_server CJS)))
     = delivered (fresh_server CJS) ++ deliveries [] (PEvent (EvConnect 1000))
       ++ [(5%nat, PEvent (EvConnect 1000))].
Proof.
  split; [reflexivity|].
  exact (proj1 (@once_receives_one_emission connect [] 5 (PEvent (EvConnect 1000))
                  PUndefined (fresh_server CJS) eq_refl)).
Defined.

(** A handler subscribed right after a once-subscriber misses the
    emission in which the once-subscriber fires: the wrapper splices
    itself out of the array that [forEach] is walking, the handler
    moves into the slot just visited and is never reached.  It stays
    subscribed and receives the following emission. *)
Theorem handler_after_once_is_skipped (ev : EventName) (ids : list nat) (a b : nat)
    (d d' : Payload) (s : Session) :
  get_list ev (eventCallbacks s) = Some (map UserCb ids) ->
  let s1 := emit ev d (on ev (UserCb b) (once ev (UserCb a) s)) in
  delivered s1 = delivered s ++ deliveries ids d ++ [(a, d)]
  /\ get_list ev (eventCallbacks s1) = Some (map UserCb (ids ++ [b]))
  /\ delivered (emit ev d' s1) = delivered s1 ++ deliveries (ids ++ [b]) d'.
Proof.
  intros Hl s1.
  set (s0 := on ev (UserCb b) (once ev (UserCb a) s)).
  assert (Hl1 : get_list ev (eventCallbacks s0)
                = Some (map UserCb ids ++ OnceWrapped (nextId s) ev (UserCb a)
                          :: [UserCb b])).
  { subst s0; unfold once, on; simpl; rewrite Hl; simpl.
    rewrite get_set_list; simpl; rewrite get_set_list, <- app_assoc; reflexivity. }
  assert (E : s1 = with_delivered (delivered s ++ deliveries ids d ++ [(a, d)])
                     (with_eventCallbacks
                        (set_list ev (map UserCb ids ++ [UserCb b]) (eventCallbacks s0))
                        (with_emitted (emitted s ++ [(ev, d)]) s0))).
  { subst s1; fold s0; rewrite (@emit_reaches_once ev d ids _ a [UserCb b] _ Hl1); simpl.
    rewrite get_set_list.
    assert (Hn : nth_error (map UserCb ids ++ [UserCb b]) (S (List.length ids)) = None)
      by (apply nth_error_None; rewrite length_app, length_map; simpl; lia).
    simpl in Hn; rewrite Hn.
    destruct (on_frame ev (UserCb b) (once ev (UserCb a) s)) as [Hd He].
    destruct (once_frame ev (UserCb a) s) as [Hd' He'].
    fold s0 in Hd, He. rewrite Hd, He, Hd', He'; reflexivity. }
  assert (Hl2 : get_list ev (eventCallbacks s1) = Some (map UserCb (ids ++ [b]))).
  { rewrite E; simpl; rewrite get_set_list, map_app; reflexivity. }
  split; [rewrite E; reflexivity|split; [exact Hl2|]].
  now apply emit_user_handlers.
Qed.

Lemma handler_after_once_is_skipped_witness :
  get_list connect (eventCallbacks (fresh_server CJS)) = Some (map UserCb [])
  /\ delivered (emit connect (PEvent (EvConnect 1000))
                  (on connect (UserCb 6) (once connect (UserCb 5) (fresh_server CJS))))
     = delivered (fresh_server CJS) ++ deliveries [] (PEvent (EvConnect 1000))
       ++ [(5%nat, PEvent (EvConnect 1000))].
Proof.
  split; [reflexivity|].
  exact (proj1 (@handler_after_once_is_skipped connect [] 5 6 (PEvent (EvConnect 1000))
                  PUndefined (fresh_server CJS) eq_refl)).
Defined.

(** ** The transport methods of [ENetBase] *)

Lemma log_calls_nil (s : Session) : log_calls [] s = s.
Proof. unfold log_calls; rewrite app_nil_r; destruct s; reflexivity. Qed.

Lemma ENetBase_sendRawPacket_spec (peerId : PeerId) (ch : Z) (data : JsData) (flags : Z)
    (ans : SendAnswer) (s : Session) :
  let r := native_sendRawPacket peerId ch data flags ans in
  ENetBase_sendRawPacket peerId ch data flags ans s
  = match fst r with
    | Return z => (Return z, log_calls (snd r) s)
    | Throw e => (Return (-1), emit error (PError e) (log_calls (snd r) s))
    end.
Proof.
  unfold ENetBase_sendRawPacket, try_catch, lift_native, bind, modify, ret; simpl.
  destruct (native_sendRawPacket peerId ch data flags ans) as [[z|e] cs]; reflexivity.
Qed.

Lemma ENetBase_send_unfold (peerId : PeerId) (ch : Z) (data : JsData) (reliable : bool)
    (ans : SendAnswer) (s : Session) :
  let r := native_sendPacket peerId ch data (if reliable then 1 else 0) ans in
  ENetBase_send peerId ch data reliable ans s
  = match fst r with
    | Return z => (Return z, log_calls (snd r) s)
    | Throw e => (Return (-1), emit error (PError e) (log_calls (snd r) s))
    end.
Proof.
  unfold ENetBase_send, try_catch, lift_native, bind, modify, ret; simpl.
  destruct (native_sendPacket peerId ch data (if reliable then 1 else 0) ans)
    as [[z|e] cs]; reflexivity.
Qed.

(** None of [handleEvent], [send], [sendRawPacket], the three
    disconnects, [destroy] and [flush] lets an exception out, whatever
    the session, the arguments and the answers of the library. *)
Theorem transport_methods_never_throw (s : Session) (e : ENetEvent) (peerId : PeerId)
    (ch flags d : Z) (data : JsData) (reliable : bool) (ans : SendAnswer)
    (k : DisconnectKind) :
  fst (handleEvent e s) = Return tt
  /\ (exists z, fst (ENetBase_send peerId ch data reliable ans s) = Return z)
  /\ (exists z, fst (ENetBase_sendRawPacket peerId ch data flags ans s) = Return z)
  /\ fst (ENetBase_disconnect_kind k peerId d s) = Return tt
  /\ fst (destroy s) = Return tt
  /\ fst (flush s) = Return tt.
Proof.
  split; [apply handleEvent_returns|].
  split; [apply ENetBase_send_returns|].
  split.
  { rewrite ENetBase_sendRawPacket_spec.
    destruct (fst (native_sendRawPacket peerId ch data flags ans)); simpl; eauto. }
  split.
  { destruct k; simpl;
      unfold ENetBase_disconnect, ENetBase_disconnectNow, ENetBase_disconnectLater,
        native_disconnect, native_disconnectNow, native_disconnectLater,
        try_catch, lift_native, bind, modify;
      destruct (valid_peer peerId); reflexivity. }
  split; [reflexivity|].
  unfold flush, try_catch, bind, get, lift_native, native_flush, modify; simpl.
  destruct (host (native s)); reflexivity.
Qed.

(** A peer id that is not a non-zero 64-bit value never reaches the
    library: [send] and [sendRawPacket] return -1, the disconnects
    return, each publishes the [TypeError] 'Invalid peer id' and
    nothing else changes; in particular the registry keeps the entry
    the disconnect was meant to remove. *)
Theorem invalid_peer_id_is_rejected (s : Session) (peerId : PeerId) (ch flags d : Z)
    (data : JsData) (reliable : bool) (ans : SendAnswer) (k : DisconnectKind) :
  valid_peer peerId = false ->
  let s' := emit error (PError (TypeError "Invalid peer id")) s in
  ENetBase_send peerId ch data reliable ans s = (Return (-1), s')
  /\ ENetBase_sendRawPacket peerId ch data flags ans s = (Return (-1), s')
  /\ ENetBase_disconnect_kind k peerId d s = (Return tt, s')
  /\ peers s' = peers s
  /\ engine_log s' = engine_log s
  /\ emitted s' = emitted s ++ [(error, PError (TypeError "Invalid peer id"))].
Proof.
  intros Hv s'; subst s'.
  rewrite ENetBase_send_unfold, ENetBase_sendRawPacket_spec.
  unfold native_sendPacket, native_sendRawPacket; rewrite Hv; simpl.
  rewrite log_calls_nil, peers_emit, engine_log_emit, emitted_emit by discriminate.
  repeat split.
  destruct k; simpl;
    unfold ENetBase_disconnect, ENetBase_disconnectNow, ENetBase_disconnectLater,
      native_disconnect, native_disconnectNow, native_disconnectLater,
      try_catch, lift_native, bind, modify;
    rewrite Hv; simpl; now rewrite log_calls_nil.
Qed.

Lemma invalid_peer_id_is_rejected_witness :
  valid_peer 0 = false
  /\ ENetBase_send 0 0 (JsString "hi") true (mkSendAnswer true 0) server_two_peers
     = (Return (-1), emit error (PError (TypeError "Invalid peer id")) server_two_peers).
Proof.
  split; [reflexivity|].
  exact (proj1 (@invalid_peer_id_is_rejected server_two_peers 0 0 1 0 (JsString "hi") true
                  (mkSendAnswer true 0) Graceful eq_refl)).
Defined.

Lemma strip_no_allocate_bits (flags i : Z) :
  Z.testbit (strip_no_allocate flags) i
  = (0 <=? i) && (i <? 32) && negb (i =? 2) && Z.testbit flags i.
Proof.
  unfold strip_no_allocate, uint32, PACKET_FLAG_NO_ALLOCATE.
  destruct (0 <=? i) eqn:E0; cbn [andb].
  2:{ apply Z.leb_gt in E0. now rewrite Z.testbit_neg_r. }
  apply Z.leb_le in E0.
  rewrite Z.land_spec, Z.lxor_spec.
  change (2 ^ 32 - 1) with (Z.ones 32). change 4 with (2 ^ 2).
  rewrite Z.pow2_bits_eqb by lia.
  destruct (i <? 32) eqn:E1; cbn [andb].
  - apply Z.ltb_lt in E1.
    rewrite Z.mod_pow2_bits_low, Z.ones_spec_low by lia.
    rewrite (Z.eqb_sym i 2).
    destruct (2 =? i), (Z.testbit flags i); reflexivity.
  - apply Z.ltb_ge in E1.
    now rewrite Z.mod_pow2_bits_high by lia.
Qed.

Lemma send_tail_flags (peerId : PeerId) (ch : Z) (len : nat) (flags : Z) (msg : string)
    (ans : SendAnswer) :
  forall c, In c (snd (send_tail peerId ch len flags msg ans)) ->
            is_packet_create c = true -> c = enet_packet_create len (strip_no_allocate flags).
Proof.
  intros c; unfold send_tail.
  destruct (packet_created ans); simpl.
  - intros [<-|[<-|H]]; try discriminate; auto.
    destruct (peer_send_result ans <? 0); simpl in H; [|tauto].
    destruct H as [<-|[]]; discriminate.
  - intros [<-|[]]; auto.
Qed.

(** Whatever flags the caller passes to [sendRawPacket], the packet the
    library is asked to create carries them as a 32-bit value with the
    no-allocate bit (value 4) cleared and every other bit as given. *)
Theorem no_allocate_is_stripped (peerId : PeerId) (ch flags : Z) (data : JsData)
    (ans : SendAnswer) (s : Session) :
  let s' := snd (ENetBase_sendRawPacket peerId ch data flags ans s) in
  exists cs,
    engine_log s' = engine_log s ++ cs
    /\ Forall no_allocate_clear cs
    /\ (forall len fl i,
          In (enet_packet_create len fl) cs ->
          Z.testbit fl i
          = (0 <=? i) && (i <? 32) && negb (i =? 2) && Z.testbit flags i).
Proof.
  intros s'; subst s'.
  exists (snd (native_sendRawPacket peerId ch data flags ans)).
  rewrite ENetBase_sendRawPacket_spec.
  assert (Hc : forall c, In c (snd (native_sendRawPacket peerId ch data flags ans)) ->
                         is_packet_create c = true ->
                         exists len, c = enet_packet_create len (strip_no_allocate flags)).
  { intros c; unfold native_sendRawPacket.
    destruct (valid_peer peerId); [|intros []].
    destruct data; cbn [IsBuffer snd In]; try tauto;
      intros H1 H2; eexists; eapply send_tail_flags; eauto. }
  split; [|split].
  - destruct (fst (native_sendRawPacket peerId ch data flags ans)); simpl;
      rewrite ?engine_log_emit; reflexivity.
  - apply Forall_forall; intros c Hin.
    destruct c; try exact I. unfold no_allocate_clear.
    destruct (Hc _ Hin eq_refl) as [len' [= _ ->]].
    rewrite strip_no_allocate_bits; reflexivity.
  - intros len fl i Hin.
    destruct (Hc _ Hin eq_refl) as [len' [= _ ->]].
    apply strip_no_allocate_bits.
Qed.





(** ** [destroy], [initialize], [deinitialize], [service] *)

(** [destroy()] returns normally, empties the registry, clears
    [hostCreated] and the native host, destroys the library host if
    there was one and publishes nothing.  A second [destroy()] changes
    nothing at all, and [service] is a no-op afterwards. *)
Theorem destroy_is_idempotent (s : Session) :
  let s' := snd (destroy s) in
  fst (destroy s) = Return tt
  /\ peers s' = []
  /\ hostCreated s' = false
  /\ host (native s') = false
  /\ engine_log s' = engine_log s ++ (if host (native s) then [enet_host_destroy] else [])
  /\ emitted s' = emitted s
  /\ destroy s' = (Return tt, s')
  /\ (forall timeout ans, service timeout ans s' = (Return None, s')).
Proof.
  destruct s as [w ps cbs run hc cfg sp v tm pr nx em dl lg].
  cbv [destroy try_catch bind get modify lift_native native_destroyHost log_calls
       service ret]; simpl.
  repeat split. now rewrite app_nil_r.
Qed.

(** [initialize()] signals a failed library start by throwing the
    native [TypeError]; it never returns [false] and never publishes on
    [error].  It throws exactly when this session holds no slot yet, the
    process count is zero and [enet_initialize] fails. *)
Theorem initialize_failure_is_thrown (g : Z) (enet_ok : bool) (s : Session) :
  let r := snd (ENetBase_initialize g enet_ok s) in
  emitted (snd r) = emitted s
  /\ (fst r = Return true \/ fst r = Throw (TypeError "Failed to initialize ENet"))
  /\ (fst r = Throw (TypeError "Failed to initialize ENet")
      <-> initialized (native s) = false /\ g = 0 /\ enet_ok = false).
Proof.
  unfold ENetBase_initialize, EngineInit.Initialize, EngineInit.fetch_add,
    EngineInit.fetch_sub.
  destruct (initialized (native s)) eqn:Hi; simpl;
    [|destruct (g =? 0) eqn:Hg; simpl;
      [apply Z.eqb_eq in Hg; destruct enet_ok; simpl|apply Z.eqb_neq in Hg]];
    (split; [reflexivity|]);
    (split; [(left; reflexivity) || (right; reflexivity)|]);
    (split; [intros H; try discriminate H; auto
            |intros (H1 & H2 & H3); try discriminate; congruence]).
Qed.

(** [deinitialize()] destroys the native host but leaves [hostCreated]
    and the registry as they are.  So on a session whose host was
    created and not destroyed with [destroy()] first, the next
    [service] throws 'Host not created', and a polling loop started
    then ends in its first pass, publishing that error. *)
Theorem deinitialize_without_destroy (g : Z) (s : Session) (timeout : Z)
    (ans : ServiceAnswer) (pollIntervalMs maxPollIntervalMs : Z) (t : Tick)
    (script : list Tick) :
  hostCreated s = true ->
  let s' := snd (snd (ENetBase_deinitialize g s)) in
  let err := TypeError "Host not created" in
  fst (snd (ENetBase_deinitialize g s)) = Return tt
  /\ hostCreated s' = true
  /\ peers s' = peers s
  /\ host (native s') = false
  /\ service timeout ans s' = (Throw err, s')
  /\ fst (listen pollIntervalMs maxPollIntervalMs (t :: script) s')
     = [mkIteration pollIntervalMs Failed pollIntervalMs]
  /\ emitted (snd (listen pollIntervalMs maxPollIntervalMs (t :: script) s'))
     = emitted s ++ [(error, PError err)].
Proof.
  intros Hc s' err.
  assert (E : forall x timeout' ans',
             hostCreated x = true -> host (native x) = false ->
             service timeout' ans' x = (Throw err, x)).
  { intros x t' a' H1 H2.
    unfold service, bind, get, lift_native, native_hostService; simpl.
    rewrite H1; simpl; rewrite H2; simpl. now rewrite log_calls_nil. }
  assert (Hs' : hostCreated s' = true /\ host (native s') = false
                /\ peers s' = peers s /\ emitted s' = emitted s
                /\ fst (snd (ENetBase_deinitialize g s)) = Return tt).
  { subst s'; unfold ENetBase_deinitialize, EngineInit.Deinitialize, EngineInit.fetch_sub.
    destruct (initialized (native s)); simpl; auto. }
  destruct Hs' as (H1 & H2 & H3 & H4 & H5).
  repeat split; auto.
  - unfold listen; simpl.
    rewrite (E (with_running true s') pollIntervalMs (tick_answer t)) by assumption.
    reflexivity.
  - unfold listen; simpl.
    rewrite (E (with_running true s') pollIntervalMs (tick_answer t)) by assumption.
    simpl. rewrite emitted_emit by discriminate; simpl. now rewrite H4.
Qed.

Lemma deinitialize_without_destroy_witness :
  hostCreated (fresh_server CJS) = true
  /\ service 2 HsNone (snd (snd (ENetBase_deinitialize 1 (fresh_server CJS))))
     = (Throw (TypeError "Host not created"),
        snd (snd (ENetBase_deinitialize 1 (fresh_server CJS)))).
Proof.
  split; [reflexivity|].
  destruct (@deinitialize_without_destroy 1 (fresh_server CJS) 2 HsNone 2 32
              (mkTick HsNone false) [] eq_refl) as (_ & _ & _ & _ & H & _).
  exact H.
Defined.

Lemma log_calls_app (a b : list EngineCall) (s : Session) :
  log_calls b (log_calls a s) = log_calls (a ++ b) s.
Proof. unfold log_calls; destruct s; simpl; now rewrite app_assoc. Qed.

Lemma engine_log_handleEvent (e : ENetEvent) (s : Session) :
  engine_log (snd (handleEvent e s)) = engine_log s.
Proof.
  destruct e as [p|p d|p c d|]; unfold handleEvent, try_catch, bind, modify; simpl;
    rewrite engine_log_emit; try reflexivity;
    destruct (map_get p (peers s)); reflexivity.
Qed.

(** One poll on a session with a host.  An event found by the poll is
    handed to [handleEvent] and returned to the caller as well; before
    that the native layer has destroyed the packet of a Receive event,
    whose bytes the event carries as a copy, so the library log gains
    the poll and, for a Receive event with a packet, the destruction of
    that packet.  A Receive event leaves the registry as it was and is
    published on [receive], where each application handler is called
    with it.  Without an event the call returns null and only the poll
    is logged; a failure of the library is thrown, with nothing
    published. *)
Theorem service_dual_delivery (timeout : Z) (s : Session) :
  hostCreated s = true ->
  host (native s) = true ->
  let polled := log_calls [enet_host_service (uint32 timeout)] s in
  (forall e,
     let taken := match e with
                  | EvReceive _ _ (Some _) => [enet_packet_destroy]
                  | _ => []
                  end in
     service timeout (HsEvent e) s
       = (Return (Some e), snd (handleEvent e (log_calls taken polled)))
     /\ engine_log (snd (service timeout (HsEvent e) s))
        = engine_log s ++ enet_host_service (uint32 timeout) :: taken)
  /\ (forall p ch d ids,
        cb_receive (eventCallbacks s) = map UserCb ids ->
        let e := EvReceive p ch d in
        let s' := snd (service timeout (HsEvent e) s) in
        peers s' = peers s
        /\ emitted s' = emitted s ++ [(receive, PEvent e)]
        /\ delivered s' = delivered s ++ map (fun id => (id, PEvent e)) ids)
  /\ service timeout HsNone s = (Return None, polled)
  /\ service timeout HsError s
     = (Throw (TypeError "Error occurred during host service"), polled).
Proof.
  intros Hc Hh polled.
  assert (E : forall e,
             service timeout (HsEvent e) s
             = (Return (Some e),
                snd (handleEvent e
                       (log_calls (enet_host_service (uint32 timeout) :: release_packet e) s))))
    by (intros e; now apply service_hands_event_over).
  split; [|split; [|split]].
  - intros e taken.
    assert (Ht : taken = release_packet e) by (destruct e as [| | ? ? [|]|]; reflexivity).
    rewrite E, Ht. subst polled. rewrite log_calls_app. simpl.
    split; [reflexivity|]. now rewrite engine_log_handleEvent.
  - intros p ch d ids Hids e s'. subst s'. rewrite E.
    set (x := log_calls _ s).
    assert (Hx : handleEvent e x = (Return tt, emit receive (PEvent e) x)) by reflexivity.
    rewrite Hx; simpl.
    rewrite peers_emit, emitted_emit by discriminate.
    rewrite (@emit_user_handlers receive (PEvent e) ids x) by (simpl; now rewrite Hids).
    repeat split.
  - unfold service, bind, get, lift_native, native_hostService, ret; simpl.
    rewrite Hc; simpl; rewrite Hh; reflexivity.
  - unfold service, bind, get, lift_native, native_hostService, ret; simpl.
    rewrite Hc; simpl; rewrite Hh; reflexivity.
Qed.

Lemma service_dual_delivery_witness :
  let e := EvReceive 1000 1 (Some [x68; x69]) in
  let r := service 2 (HsEvent e) watched_server in
  hostCreated watched_server = true
  /\ host (native watched_server) = true
  /\ cb_receive (eventCallbacks watched_server) = map UserCb [4%nat]
  /\ fst r = Return (Some e)
  /\ engine_log (snd r)
     = engine_log watched_server ++ [enet_host_service 2; enet_packet_destroy]
  /\ emitted (snd r) = emitted watched_server ++ [(receive, PEvent e)]
  /\ delivered (snd r) = delivered watched_server ++ [(4%nat, PEvent e)].
Proof.
  intros e r.
  do 3 (split; [reflexivity|]).
  destruct (@service_dual_delivery 2 watched_server eq_refl eq_refl) as (H1 & H2 & _).
  destruct (H1 e) as (Hr & Hl).
  destruct (H2 1000 1 (Some [x68; x69]) [4%nat] eq_refl) as (_ & He & Hd).
  split; [exact (f_equal fst Hr)|].
  split; [exact Hl|].
  split; [exact He | exact Hd].
Defined.

(** ** [createServer] and the constructors' configuration *)

(** When the probe finds the port taken, [createServer] throws the
    port-in-use error without asking the library for a host, leaves
    [hostCreated] as it was, and publishes that same error twice: once
    where it is raised and once more in the [catch] that rethrows. *)
Theorem port_in_use_is_published_twice (ans : HostAnswer) (s : Session) :
  let err := Error (String.append "Port "
                     (String.append (string_of_Z (cfg_port (config s)))
                        (String.append " is already in use on " (ip (config s))))) in
  let r := createServer false ans s in
  fst r = Throw err
  /\ emitted (snd r) = emitted s ++ [(error, PError err); (error, PError err)]
  /\ engine_log (snd r) = engine_log s
  /\ hostCreated (snd r) = hostCreated s
  /\ native (snd r) = native s.
Proof.
  cbv [createServer try_catch bind get modify lift_native ret throw]; simpl.
  set (err := Error _).
  pose proof (core_emit error (PError err) (emit error (PError err) s)) as H2.
  pose proof (core_emit error (PError err) s) as H1.
  unfold core in H1, H2; simpl in H1, H2.
  injection H1 as N1 P1 R1 C1 G1 S1 V1 L1 E1.
  injection H2 as N2 P2 R2 C2 G2 S2 V2 L2 E2.
  rewrite E2, E1, L2, L1, C2, C1, N2, N1, <- app_assoc. repeat split.
Qed.

Lemma or_num_nonzero (a : option Z) (d : Z) : d <> 0 -> or_num a d <> 0.
Proof.
  intros Hd; unfold or_num; destruct a as [z|]; [|exact Hd].
  destruct (z =? 0) eqn:E; [exact Hd|now apply Z.eqb_neq].
Qed.

Lemma or_string_nonempty (a : option string) (d : string) :
  d <> EmptyString -> or_string a d <> EmptyString.
Proof.
  intros Hd; unfold or_string; destruct a as [x|]; [|exact Hd].
  destruct (String.eqb x "") eqn:E; [exact Hd|now apply String.eqb_neq].
Qed.

(** Whatever options the constructors get, the config they build never
    holds port 0, channel limit 0, peer capacity 0 or an empty address:
    such values are replaced by the defaults (17091, 2, 32,
    '127.0.0.1'), so they cannot be configured. *)
Theorem config_never_holds_falsy_values (v : Variant) (o : Options) :
  (cfg_port (server_config v o) <> 0
   /\ channelLimit (server_config v o) <> 0
   /\ ip (server_config v o) <> EmptyString
   /\ exists n, maxPeer (server_config v o) = Some n /\ n <> 0)
  /\ (cfg_port (client_config v o) <> 0
      /\ channelLimit (client_config v o) <> 0
      /\ ip (client_config v o) <> EmptyString).
Proof.
  unfold server_config, client_config; simpl.
  repeat split; try (apply or_num_nonzero; lia);
    try (repeat apply or_string_nonempty; discriminate).
  eexists; split; [reflexivity|apply or_num_nonzero; lia].
Qed.

(** ** The polling loop: how it ends, how it backs off *)

Lemma emit_keeps (ev : EventName) (data : Payload) (s : Session) :
  running (emit ev data s) = running s
  /\ hostCreated (emit ev data s) = hostCreated s
  /\ native (emit ev data s) = native s.
Proof.
  pose proof (core_emit ev data s) as H; unfold core in H.
  injection H as N P R C G S V L E. auto.
Qed.

Lemma handleEvent_keeps (e : ENetEvent) (s : Session) :
  running (snd (handleEvent e s)) = running s
  /\ hostCreated (snd (handleEvent e s)) = hostCreated s
  /\ native (snd (handleEvent e s)) = native s.
Proof.
  destruct e as [p|p d|p c d|]; unfold handleEvent, try_catch, bind, modify; simpl.
  - destruct (map_get p (peers s));
      match goal with |- context [emit ?ev ?d ?x] =>
        destruct (emit_keeps ev d x) as (-> & -> & ->) end; auto.
  - destruct (map_get p (peers s));
      match goal with |- context [emit ?ev ?d ?x] =>
        destruct (emit_keeps ev d x) as (-> & -> & ->) end; auto.
  - apply emit_keeps.
  - apply emit_keeps.
Qed.

Lemma service_keeps (timeout : Z) (ans : ServiceAnswer) (s : Session) :
  running (snd (service timeout ans s)) = running s
  /\ hostCreated (snd (service timeout ans s)) = hostCreated s
  /\ native (snd (service timeout ans s)) = native s.
Proof.
  unfold service, bind, get, lift_native, native_hostService, ret; simpl.
  destruct (hostCreated s) eqn:Hc; simpl; [|auto].
  destruct (host (native s)) eqn:Hh; simpl; [|auto].
  destruct ans as [| |e]; simpl; auto.
  set (x := log_calls (enet_host_service (uint32 timeout) :: release_packet e) s).
  pose proof (handleEvent_returns e x) as Hr.
  destruct (handleEvent_keeps e x) as (K1 & K2 & K3).
  destruct (handleEvent e x) as [c s'].
  simpl in *; subst c; simpl. rewrite K1, K2, K3; auto.
Qed.

Lemma listen_loop_failure (pollIntervalMs maxPollIntervalMs : Z) (script : list Tick) :
  forall (cur : Z) (s : Session) (i : nat) (it : Iteration),
    nth_error (fst (listen_loop pollIntervalMs maxPollIntervalMs cur script s)) i = Some it ->
    outcome it = Failed ->
    List.length (fst (listen_loop pollIntervalMs maxPollIntervalMs cur script s)) = S i
    /\ running (snd (listen_loop pollIntervalMs maxPollIntervalMs cur script s)) = true
    /\ exists e, In (error, PError e)
                   (emitted (snd (listen_loop pollIntervalMs maxPollIntervalMs cur script s))).
Proof.
  induction script as [|t script IH]; intros cur s i it; simpl.
  - destruct i; discriminate.
  - destruct (running s) eqn:Hr; simpl; [|destruct i; discriminate].
    destruct (service_keeps cur (tick_answer t) s) as (K & _).
    destruct (service cur (tick_answer t) s) as [[event|err] s1]; simpl in *.
    + destruct i as [|i]; simpl.
      * intros [= <-]; destruct event; discriminate.
      * intros Hn Ho. destruct (IH _ _ _ _ Hn Ho) as (H1 & H2 & H3).
        rewrite H1; auto.
    + destruct i as [|i]; simpl; [|destruct i; discriminate].
      intros _ _. split; [reflexivity|split].
      * destruct (emit_keeps error (PError err) s1) as (-> & _). congruence.
      * exists err. rewrite emitted_emit by discriminate.
        apply in_or_app; right; now left.
Qed.

(** A pass whose [service()] throws is the last pass of the loop and
    its error is published; the loop ends with [running] still set, so
    the session looks as if its loop were alive. *)
Theorem failed_pass_ends_loop_running_stays (pollIntervalMs maxPollIntervalMs : Z)
    (script : list Tick) (s : Session) (i : nat) (it : Iteration) :
  nth_error (fst (listen pollIntervalMs maxPollIntervalMs script s)) i = Some it ->
  outcome it = Failed ->
  List.length (fst (listen pollIntervalMs maxPollIntervalMs script s)) = S i
  /\ running (snd (listen pollIntervalMs maxPollIntervalMs script s)) = true
  /\ exists e, In (error, PError e)
                 (emitted (snd (listen pollIntervalMs maxPollIntervalMs script s))).
Proof. unfold listen; apply listen_loop_failure. Qed.

Lemma failed_pass_ends_loop_running_stays_witness :
  nth_error (fst (listen 2 32 [mkTick HsNone false; mkTick HsError false; mkTick HsNone false]
                    (fresh_server CJS))) 1
    = Some (mkIteration 4 Failed 4)
  /\ outcome (mkIteration 4 Failed 4) = Failed
  /\ running (snd (listen 2 32 [mkTick HsNone false; mkTick HsError false;
                                mkTick HsNone false] (fresh_server CJS))) = true.
Proof.
  split; [vm_compute; reflexivity|split; [reflexivity|]].
  destruct (@failed_pass_ends_loop_running_stays 2 32
              [mkTick HsNone false; mkTick HsError false; mkTick HsNone false]
              (fresh_server CJS) 1 (mkIteration 4 Failed 4)) as (_ & H & _);
    [vm_compute; reflexivity|reflexivity|exact H].
Defined.

Lemma listen_loop_not_running (pollIntervalMs maxPollIntervalMs cur : Z)
    (script : list Tick) (s : Session) :
  running s = false ->
  listen_loop pollIntervalMs maxPollIntervalMs cur script s = ([], s).
Proof. intros H; destruct script; simpl; [reflexivity|now rewrite H]. Qed.

Lemma listen_loop_stop (pollIntervalMs maxPollIntervalMs : Z) (pre : list Tick)
    (t : Tick) (post : list Tick) :
  tick_stop t = true ->
  forall (cur : Z) (s : Session),
    (List.length (fst (listen_loop pollIntervalMs maxPollIntervalMs cur
                         (pre ++ t :: post) s))
     <= S (List.length pre))%nat.
Proof.
  intros Ht; induction pre as [|t0 pre IH]; intros cur s; simpl.
  - destruct (running s); simpl; [|lia].
    destruct (service cur (tick_answer t) s) as [[event|err] s1]; simpl; [|lia].
    rewrite Ht, listen_loop_not_running by reflexivity. simpl; lia.
  - destruct (running s); simpl; [|lia].
    destruct (service cur (tick_answer t0) s) as [[event|err] s1]; simpl; [|lia].
    match goal with |- context [listen_loop _ _ ?c _ ?x] => specialize (IH c x) end.
    lia.
Qed.

(** [stop()] is honoured at the next test of the loop: when it is
    called during the sleep of some pass, that pass is the last one. *)
Theorem stop_ends_loop_after_current_pass (pollIntervalMs maxPollIntervalMs : Z)
    (pre : list Tick) (t : Tick) (post : list Tick) (s : Session) :
  tick_stop t = true ->
  (List.length (fst (listen pollIntervalMs maxPollIntervalMs (pre ++ t :: post) s))
   <= S (List.length pre))%nat.
Proof. intros Ht; unfold listen; now apply listen_loop_stop. Qed.

Lemma stop_ends_loop_after_current_pass_witness :
  tick_stop (mkTick HsNone true) = true
  /\ (List.length (fst (listen 2 32 ([mkTick HsNone false] ++ mkTick HsNone true
                                       :: [mkTick HsNone false; mkTick HsNone false])
                          (fresh_server CJS)))
      <= S (List.length [mkTick HsNone false]))%nat.
Proof.
  split; [reflexivity|].
  apply (@stop_ends_loop_after_current_pass 2 32 [mkTick HsNone false]
           (mkTick HsNone true) [mkTick HsNone false; mkTick HsNone false]
           (fresh_server CJS)).
  reflexivity.
Defined.

Lemma service_idle (timeout : Z) (s : Session) :
  hostCreated s = false \/ host (native s) = true ->
  fst (service timeout HsNone s) = Return None.
Proof.
  unfold service, bind, get, lift_native, native_hostService, ret; simpl.
  intros [H|H].
  - now rewrite H.
  - destruct (hostCreated s); simpl; [now rewrite H|reflexivity].
Qed.

Lemma backoff_step (c m : Z) (k : nat) :
  0 <= c -> 0 <= m ->
  Z.min (Z.min (c * 2) m * 2 ^ Z.of_nat k) m = Z.min (c * 2 ^ Z.of_nat (S k)) m.
Proof.
  intros Hc Hm.
  rewrite Nat2Z.inj_succ, Z.pow_succ_r by lia.
  assert (Hp : 1 <= 2 ^ Z.of_nat k) by (pose proof (Z.pow_pos_nonneg 2 (Z.of_nat k)); lia).
  set (p := 2 ^ Z.of_nat k) in *.
  destruct (Z.min_spec (c * 2) m) as [[H ->]|[H ->]];
    destruct (Z.min_spec (c * (2 * p)) m) as [[H' ->]|[H' ->]];
    destruct (Z.min_spec (c * 2 * p) m) as [[H'' E]|[H'' E]];
    destruct (Z.min_spec (m * p) m) as [[H3 E3]|[H3 E3]];
    try rewrite E; try rewrite E3; nia.
Qed.

Lemma listen_loop_idle (pollIntervalMs maxPollIntervalMs : Z) (n : nat) :
  forall (cur : Z) (s : Session),
    0 <= cur <= maxPollIntervalMs ->
    running s = true ->
    hostCreated s = false \/ host (native s) = true ->
    fst (listen_loop pollIntervalMs maxPollIntervalMs cur (idle_script n) s)
    = map (fun k => mkIteration (Z.min (cur * 2 ^ Z.of_nat k) maxPollIntervalMs) Idle
                      (Z.min (cur * 2 ^ Z.of_nat (S k)) maxPollIntervalMs))
        (seq 0 n).
Proof.
  induction n as [|n IH]; intros cur s Hc Hr Hh; [reflexivity|].
  cbn [idle_script repeat listen_loop tick_answer tick_stop seq map].
  change (repeat (mkTick HsNone false) n) with (idle_script n).
  rewrite Hr; cbn [negb].
  pose proof (service_idle cur s Hh) as Hs.
  destruct (service_keeps cur HsNone s) as (K1 & K2 & K3).
  destruct (service cur HsNone s) as [c s1]; simpl in Hs, K1, K2, K3; subst c.
  cbn [fst snd].
  rewrite IH; [|lia|congruence|rewrite K2, K3; exact Hh].
  f_equal.
  - f_equal; try reflexivity.
    change (Z.of_nat 0) with 0.
    rewrite Z.pow_0_r, Z.mul_1_r. symmetry; apply Z.min_l; lia.
  - rewrite <- seq_shift, map_map.
    apply map_ext; intros k.
    rewrite !backoff_step by lia. reflexivity.
Qed.

(** With nothing to report and nobody stopping it, the loop makes every
    pass and backs off along [min (pollIntervalMs * 2^k)
    maxPollIntervalMs]: pass [k] polls with that timeout (2, 4, 8, 16,
    32, 32, ... with the defaults). *)
Theorem idle_backoff_closed_form (pollIntervalMs maxPollIntervalMs : Z) (n : nat)
    (s : Session) :
  0 <= pollIntervalMs <= maxPollIntervalMs ->
  hostCreated s = false \/ host (native s) = true ->
  fst (listen pollIntervalMs maxPollIntervalMs (idle_script n) s)
  = map (fun k => mkIteration (Z.min (pollIntervalMs * 2 ^ Z.of_nat k) maxPollIntervalMs)
                    Idle
                    (Z.min (pollIntervalMs * 2 ^ Z.of_nat (S k)) maxPollIntervalMs))
      (seq 0 n).
Proof.
  intros Hp Hh; unfold listen.
  apply listen_loop_idle; [exact Hp|reflexivity|exact Hh].
Qed.

Lemma idle_backoff_closed_form_witness :
  0 <= 2 <= 32
  /\ (hostCreated (fresh_server CJS) = false \/ host (native (fresh_server CJS)) = true)
  /\ map interval_in (fst (listen 2 32 (idle_script 7) (fresh_server CJS)))
     = [2; 4; 8; 16; 32; 32; 32].
Proof.
  assert (H : 0 <= 2 <= 32) by lia.
  split; [exact H|split; [right; reflexivity|]].
  rewrite (@idle_backoff_closed_form 2 32 7 (fresh_server CJS) H (or_intror eq_refl)).
  reflexivity.
Defined.

(** ** [Client.connect] *)

(** [connect] never lets an exception out: whatever fails inside
    (creating the host, the native connect) is caught, published on
    [error], and the call completes normally.  When the host exists and
    the native connect throws, that publication is the whole effect:
    no peer is remembered, no subscriber and no timer is left. *)
Theorem connect_swallows_failures (timeoutMs : Z) (host_ans : HostAnswer)
    (ans : ConnectAnswer) (first_poll : ServiceAnswer) (script : list Tick) (s : Session) :
  (exists r, fst (Client_connect timeoutMs host_ans ans first_poll script s) = Return r)
  /\ (hostCreated s = true ->
      forall e,
        fst (native_connect (native s) (ip (config s)) (cfg_port (config s))
               (channelLimit (config s)) 0 ans) = Throw e ->
        Client_connect timeoutMs host_ans ans first_poll script s
        = (Return None,
           emit error (PError e)
             (log_calls (snd (native_connect (native s) (ip (config s))
                                (cfg_port (config s)) (channelLimit (config s)) 0 ans)) s))).
Proof.
  split.
  - unfold Client_connect, try_catch.
    match goal with |- context [match ?b s with _ => _ end] => destruct (b s) as [[a|e] s'] end;
      simpl; eauto.
  - intros Hc e He.
    unfold Client_connect, try_catch, bind, get, lift_native, modify, ret; simpl.
    rewrite Hc; simpl. rewrite He. reflexivity.
Qed.

Lemma emit_users_then_last (ev : EventName) (data : Payload) (ids : list nat)
    (w : Callback) (s : Session) :
  get_list ev (eventCallbacks s) = Some (map UserCb ids ++ [w]) ->
  emit ev data s
  = run_callback w data
      (with_delivered (delivered s ++ deliveries ids data)
         (with_emitted (emitted s ++ [(ev, data)]) s)).
Proof.
  intros Hl; unfold emit; rewrite Hl.
  rewrite length_app, length_map; simpl List.length.
  rewrite forEach_split.
  rewrite (@forEach_user_prefix ev data ids [w] (List.length ids) 0
             (with_emitted (emitted s ++ [(ev, data)]) s) Hl) by lia.
  simpl. rewrite firstn_all, Hl.
  rewrite nth_error_app2 by (rewrite length_map; lia).
  rewrite length_map, Nat.sub_diag; reflexivity.
Qed.

Lemma remove_first_users (w : Callback) (ids : list nat) :
  (forall id, w <> UserCb id) -> remove_first w (map UserCb ids) = map UserCb ids.
Proof.
  intros Hw; induction ids as [|id ids IH]; [reflexivity|].
  change (remove_first w (UserCb id :: map UserCb ids) = UserCb id :: map UserCb ids).
  cbn [remove_first].
  destruct (Callback_eqb (UserCb id) w) eqn:E.
  - apply Callback_eqb_eq in E; symmetry in E; now apply Hw in E.
  - now rewrite IH.
Qed.

Lemma remove_nat_fresh (k : nat) (l : list nat) :
  mem_nat k l = false -> remove_nat k (l ++ [k]) = l.
Proof.
  induction l as [|x l IH]; simpl.
  - now rewrite Nat.eqb_refl.
  - destruct (Nat.eqb x k); simpl; [discriminate|]. intros H; now rewrite IH.
Qed.

Lemma settle_fresh (k : nat) (p : PromiseState) (l : list (nat * PromiseState)) :
  promise_state k l = None ->
  settle k p (l ++ [(k, Pending)]) = l ++ [(k, p)]
  /\ promise_state k (l ++ [(k, Pending)]) = Some Pending
  /\ promise_state k (l ++ [(k, p)]) = Some p.
Proof.
  induction l as [|[k' q] l IH]; simpl.
  - now rewrite Nat.eqb_refl.
  - destruct (Nat.eqb k k'); [discriminate|].
    intros H; destruct (IH H) as (-> & -> & ->); auto.
Qed.

(** The race won by the event, on any session in the state [connect]
    leaves behind. *)
Lemma matching_connect_wins (s1 : Session) (P : PeerId) (r : PeerRecord)
    (ids : list nat) (w k : nat) (tm : list nat) (pr : list (nat * PromiseState)) :
  serverPeer s1 = Some P ->
  P <> 0 ->
  map_get P (peers s1) = Some r ->
  cb_connect (eventCallbacks s1) = map UserCb ids ++ [OnceWrapped w connect (OnConnected k)] ->
  timers s1 = tm ++ [k] ->
  mem_nat k tm = false ->
  promises s1 = pr ++ [(k, Pending)] ->
  promise_state k pr = None ->
  let s2 := snd (handleEvent (EvConnect P) s1) in
  map_get P (peers s2) = Some (set_connected true r)
  /\ promises s2 = pr ++ [(k, Fulfilled)]
  /\ timers s2 = tm
  /\ cb_connect (eventCallbacks s2) = map UserCb ids
  /\ delivered s2 = delivered s1 ++ deliveries ids (PEvent (EvConnect P))
  /\ timer_fires k s2 = s2.
Proof.
  intros Hs Hp Hg Hl Ht Hm Hpr Hf s2.
  destruct s1 as [nat0 ps [l1 l2 l3 l4 l5] run hc cfg sp v tm0 pr0 nx em dl lg].
  simpl in *; subst sp l1 tm0 pr0.
  apply Z.eqb_neq in Hp.
  subst s2; unfold handleEvent, try_catch, bind, modify; simpl.
  rewrite Hg; simpl.
  rewrite (@emit_users_then_last connect (PEvent (EvConnect P)) ids
             (OnceWrapped w connect (OnConnected k))) by reflexivity.
  simpl.
  unfold off; simpl.
  rewrite remove_first_after_users by discriminate.
  unfold matches_serverPeer; simpl. rewrite Hp, Z.eqb_refl; simpl.
  unfold timer_fires, resolve, clearTimeout; simpl.
  rewrite !app_nil_r, !remove_first_users by discriminate.
  rewrite !remove_nat_fresh by exact Hm.
  destruct (settle_fresh k Fulfilled pr Hf) as (-> & _ & _).
  rewrite map_get_set_same, Hm.
  repeat split.
Qed.

(** [connect({timeoutMs})] with the host in place, a peer handed out by
    the library and nothing found by the poll made before subscribing:
    the peer is remembered as [serverPeer] with a provisional record
    ([connected = false], the configured address and port), a timer
    and a one-shot subscriber are pending.  When the Connect event for
    that peer comes first, the record is switched to connected with its
    address and port kept, the promise is fulfilled, the timer is
    cancelled, the one-shot subscriber is gone, the application's
    [connect] handlers all receive the event, and the expiry of the
    cancelled timer has no effect. *)
Theorem connect_resolves_on_matching_event (timeoutMs : Z) (host_ans : HostAnswer)
    (ans : ConnectAnswer) (script : list Tick) (s : Session) (ids : list nat) :
  hostCreated s = true ->
  host (native s) = true ->
  0 < timeoutMs ->
  connect_address_ok ans = true ->
  connect_peer ans <> 0 ->
  cb_connect (eventCallbacks s) = map UserCb ids ->
  promise_state (nextId s) (promises s) = None ->
  mem_nat (nextId s) (timers s) = false ->
  let P := connect_peer ans in
  let k := nextId s in
  let record := mkPeer false (Some (ip (config s))) (Some (cfg_port (config s))) in
  let c := Client_connect timeoutMs host_ans ans HsNone script s in
  let s1 := snd c in
  let s2 := snd (handleEvent (EvConnect P) s1) in
  fst c = Return (Some k)
  /\ serverPeer s1 = Some P
  /\ map_get P (peers s1) = Some record
  /\ timers s1 = timers s ++ [k]
  /\ promises s1 = promises s ++ [(k, Pending)]
  /\ cb_connect (eventCallbacks s1)
     = map UserCb ids ++ [OnceWrapped (S k) connect (OnConnected k)]
  /\ map_get P (peers s2) = Some (set_connected true record)
  /\ promises s2 = promises s ++ [(k, Fulfilled)]
  /\ timers s2 = timers s
  /\ cb_connect (eventCallbacks s2) = map UserCb ids
  /\ delivered s2 = delivered s ++ deliveries ids (PEvent (EvConnect P))
  /\ timer_fires k s2 = s2.
Proof.
  intros Hc Hh Ht Ha Hp Hl Hf Hm P k record c s1 s2.
  assert (A : fst c = Return (Some k)
              /\ serverPeer s1 = Some P
              /\ map_get P (peers s1) = Some record
              /\ timers s1 = timers s ++ [k]
              /\ promises s1 = promises s ++ [(k, Pending)]
              /\ cb_connect (eventCallbacks s1)
                 = map UserCb ids ++ [OnceWrapped (S k) connect (OnConnected k)]
              /\ delivered s1 = delivered s).
  { subst s1 c P k record.
    destruct s as [[h i] ps [l1 l2 l3 l4 l5] run hc cfg sp v tm pr nx em dl lg].
    destruct ans as [aok peer].
    simpl in *; subst hc h aok l1.
    apply Z.ltb_lt in Ht. apply Z.eqb_neq in Hp.
    unfold Client_connect, try_catch, connect_race, once, on.
    cbv [bind get modify lift_native ret native_connect].
    destruct run; repeat (progress (simpl; rewrite ?Hp, ?Ht));
      rewrite map_get_set_same; repeat split. }
  destruct A as (A1 & A2 & A3 & A4 & A5 & A6 & A7).
  destruct (@matching_connect_wins s1 P record ids (S k) k (timers s) (promises s)
              A2 Hp A3 A6 A4 Hm A5 Hf) as (B1 & B2 & B3 & B4 & B5 & B6).
  fold s2 in B1, B2, B3, B4, B5, B6.
  rewrite A7 in B5.
  repeat split; assumption.
Qed.

Lemma connect_resolves_on_matching_event_witness :
  hostCreated (fresh_client CJS) = true
  /\ host (native (fresh_client CJS)) = true
  /\ 0 < 50
  /\ connect_address_ok (mkConnectAnswer true 4096) = true
  /\ connect_peer (mkConnectAnswer true 4096) <> 0
  /\ cb_connect (eventCallbacks (fresh_client CJS)) = map UserCb []
  /\ promise_state (nextId (fresh_client CJS)) (promises (fresh_client CJS)) = None
  /\ mem_nat (nextId (fresh_client CJS)) (timers (fresh_client CJS)) = false
  /\ fst (Client_connect 50 host_ok (mkConnectAnswer true 4096) HsNone []
            (fresh_client CJS))
     = Return (Some (nextId (fresh_client CJS))).
Proof.
  assert (H3 : 0 < 50) by lia.
  assert (H5 : connect_peer (mkConnectAnswer true 4096) <> 0) by discriminate.
  split; [reflexivity|split; [reflexivity|split; [exact H3|split; [reflexivity|]]]].
  split; [exact H5|split; [reflexivity|split; [reflexivity|split; [reflexivity|]]]].
  exact (proj1 (@connect_resolves_on_matching_event 50 host_ok (mkConnectAnswer true 4096)
                  [] (fresh_client CJS) [] eq_refl eq_refl H3 eq_refl H5 eq_refl
                  eq_refl eq_refl)).
Defined.

Lemma emit_users_state (ev : EventName) (data : Payload) (ids : list nat) (s : Session) :
  get_list ev (eventCallbacks s) = Some (map UserCb ids) ->
  emit ev data s
  = with_delivered (delivered s ++ deliveries ids data)
      (with_emitted (emitted s ++ [(ev, data)]) s).
Proof.
  intros Hl; unfold emit; rewrite Hl, length_map.
  assert (Hl' : get_list ev (eventCallbacks (with_emitted (emitted s ++ [(ev, data)]) s))
                = Some (map UserCb ids ++ []))
    by (rewrite app_nil_r; exact Hl).
  rewrite (@forEach_user_prefix ev data ids [] (List.length ids) 0 _ Hl') by lia.
  simpl; now rewrite firstn_all.
Qed.

Lemma mem_nat_last (k : nat) (l : list nat) : mem_nat k (l ++ [k]) = true.
Proof.
  induction l as [|x l IH]; simpl; [now rewrite Nat.eqb_refl|].
  rewrite IH; apply orb_true_r.
Qed.

Lemma remove_nat_absent (k : nat) (l : list nat) :
  mem_nat k l = false -> remove_nat k l = l.
Proof.
  induction l as [|x l IH]; simpl; [reflexivity|].
  destruct (Nat.eqb x k); simpl; [discriminate|]. intros H; now rewrite IH.
Qed.

Lemma settle_rejected (k : nat) (p : PromiseState) (e : JsError)
    (l : list (nat * PromiseState)) :
  promise_state k l = None ->
  settle k p (l ++ [(k, Rejected e)]) = l ++ [(k, Rejected e)].
Proof.
  induction l as [|[k' q] l IH]; simpl.
  - now rewrite Nat.eqb_refl.
  - destruct (Nat.eqb k k'); [discriminate|]. intros H; now rewrite IH.
Qed.

Lemma remove_first_users_then (cb w : Callback) (ids : list nat) :
  (forall id, cb <> UserCb id) -> Callback_eqb w cb = false ->
  remove_first cb (map UserCb ids ++ [w]) = map UserCb ids ++ [w].
Proof.
  intros Hcb Hw; induction ids as [|id ids IH].
  - simpl; now rewrite Hw.
  - change (remove_first cb (UserCb id :: (map UserCb ids ++ [w]))
            = UserCb id :: (map UserCb ids ++ [w])).
    cbn [remove_first].
    destruct (Callback_eqb (UserCb id) cb) eqn:E.
    + apply Callback_eqb_eq in E; symmetry in E; now apply Hcb in E.
    + now rewrite IH.
Qed.

(** The race won by the timer, on any session in the state [connect]
    leaves behind: the promise is rejected with 'Connect timeout', the
    error is published and handed to the application's [error]
    handlers, the timer is gone, but the one-shot subscriber is still
    in the [connect] list.  A Connect event for the same peer that
    comes later runs and removes it; the promise stays rejected and
    the application's [connect] handlers receive the event. *)
Theorem timeout_leaves_the_subscriber (s1 : Session) (P : PeerId) (r : PeerRecord)
    (ids eids : list nat) (w k : nat) (tm : list nat) (pr : list (nat * PromiseState)) :
  serverPeer s1 = Some P ->
  P <> 0 ->
  map_get P (peers s1) = Some r ->
  cb_connect (eventCallbacks s1) = map UserCb ids ++ [OnceWrapped w connect (OnConnected k)] ->
  cb_error (eventCallbacks s1) = map UserCb eids ->
  timers s1 = tm ++ [k] ->
  mem_nat k tm = false ->
  promises s1 = pr ++ [(k, Pending)] ->
  promise_state k pr = None ->
  let err := Error "Connect timeout" in
  let s2 := timer_fires k s1 in
  let s3 := snd (handleEvent (EvConnect P) s2) in
  timers s2 = tm
  /\ promises s2 = pr ++ [(k, Rejected err)]
  /\ emitted s2 = emitted s1 ++ [(error, PError err)]
  /\ delivered s2 = delivered s1 ++ deliveries eids (PError err)
  /\ cb_connect (eventCallbacks s2)
     = map UserCb ids ++ [OnceWrapped w connect (OnConnected k)]
  /\ cb_connect (eventCallbacks s3) = map UserCb ids
  /\ promises s3 = pr ++ [(k, Rejected err)]
  /\ delivered s3 = delivered s2 ++ deliveries ids (PEvent (EvConnect P)).
Proof.
  intros Hs Hp Hg Hl He Ht Hm Hpr Hf.
  destruct s1 as [nat0 ps [l1 l2 l3 l4 l5] run hc cfg sp v tm0 pr0 nx em dl lg].
  simpl in Hs, Hg, Hl, He, Ht, Hpr; subst sp l1 l4 tm0 pr0.
  intros err s2 s3; subst err.
  apply Z.eqb_neq in Hp.
  destruct (settle_fresh k (Rejected (Error "Connect timeout")) pr Hf) as (S1 & S2 & _).
  assert (E2 : s2 = mkSession nat0 ps
                      (mkCallbacks (map UserCb ids ++ [OnceWrapped w connect (OnConnected k)])
                         l2 l3 (map UserCb eids) l5)
                      run hc cfg (Some P) v tm
                      (pr ++ [(k, Rejected (Error "Connect timeout"))]) nx
                      (em ++ [(error, PError (Error "Connect timeout"))])
                      (dl ++ deliveries eids (PError (Error "Connect timeout"))) lg).
  { subst s2; unfold timer_fires; simpl.
    rewrite mem_nat_last. unfold off, reject; simpl.
    rewrite remove_first_users_then by (discriminate || reflexivity).
    rewrite S2, S1, remove_nat_fresh by exact Hm.
    now rewrite (@emit_users_state error (PError (Error "Connect timeout")) eids)
      by reflexivity. }
  subst s3; rewrite E2; simpl.
  unfold handleEvent, try_catch, bind, modify; simpl.
  rewrite Hg; simpl.
  rewrite (@emit_users_then_last connect (PEvent (EvConnect P)) ids
             (OnceWrapped w connect (OnConnected k))) by reflexivity.
  simpl. unfold off; simpl.
  rewrite remove_first_after_users by discriminate.
  unfold matches_serverPeer; simpl. rewrite Hp, Z.eqb_refl; simpl.
  unfold resolve, clearTimeout; simpl.
  rewrite !app_nil_r, !remove_first_users by discriminate.
  rewrite settle_rejected by exact Hf.
  repeat split.
Qed.

Lemma timeout_leaves_the_subscriber_witness :
  serverPeer (snd connecting) = Some 4096
  /\ cb_connect (eventCallbacks (timer_fires 0 (snd connecting)))
     = map UserCb [] ++ [OnceWrapped 1 connect (OnConnected 0)].
Proof.
  split; [reflexivity|].
  assert (Hp : 4096 <> 0) by discriminate.
  destruct (@timeout_leaves_the_subscriber (snd connecting) 4096
              (mkPeer false (Some "127.0.0.1"%string) (Some 17091)) [] [] 1 0 [] []
              eq_refl Hp eq_refl eq_refl eq_refl eq_refl eq_refl eq_refl eq_refl)
    as (_ & _ & _ & _ & H & _).
  exact H.
Defined.

(** ** [RawPacketBuilder]: what ends up in the packet *)

Module BuilderMore.
Import RawPacketBuilder.

Lemma apply_success (op : WriteOp) (b : t) :
  builder_accepts op = true ->
  (offset b + width op <= byteLength b)%nat ->
  apply op b = Return (mk (store (buffer b) (offset b) (payload op)) (offset b + width op)).
Proof.
  intros Ha Hw. rewrite <- BuilderFacts.payload_length in Hw.
  unfold byteLength in Hw.
  assert (D : forall bytes n,
             (offset b + List.length bytes <= List.length (buffer b))%nat ->
             advance b n (DataView_set (buffer b) (offset b) bytes)
             = Return (mk (store (buffer b) (offset b) bytes) (offset b + n))).
  { intros bytes n H; unfold DataView_set.
    apply Nat.ltb_ge in H; now rewrite H. }
  assert (U : forall bytes n,
             (offset b + List.length bytes <= List.length (buffer b))%nat ->
             advance b n (Uint8Array_set (buffer b) (offset b) bytes)
             = Return (mk (store (buffer b) (offset b) bytes) (offset b + n))).
  { intros bytes n H; unfold Uint8Array_set.
    assert (H1 : (List.length (buffer b) <? offset b)%nat = false)
      by (apply Nat.ltb_ge; lia).
    assert (H2 : (List.length (buffer b) - offset b <? List.length bytes)%nat = false)
      by (apply Nat.ltb_ge; lia).
    now rewrite H1, H2. }
  destruct op; simpl in *;
    unfold writeUint8, writeUint16, writeUint32, writeFloat32, writeFloat64,
      writeString, writeBytes;
    try (apply D; exact Hw); try (apply U; exact Hw).
  apply negb_true_iff in Ha; rewrite Ha. apply U; exact Hw.
Qed.

Lemma getPacketData_store (buf : list byte) (o : nat) (bytes : list byte) :
  (o + List.length bytes <= List.length buf)%nat ->
  firstn (o + List.length bytes) (store buf o bytes) = firstn o buf ++ bytes.
Proof.
  intros H; unfold store.
  assert (Hl : List.length (firstn o buf) = o) by (rewrite length_firstn; lia).
  rewrite app_assoc.
  rewrite firstn_app.
  replace (o + List.length bytes - List.length (firstn o buf ++ bytes))%nat with 0%nat
    by (rewrite length_app, Hl; lia).
  rewrite firstn_O, app_nil_r.
  apply firstn_all2. rewrite length_app, Hl; lia.
Qed.

Lemma apply_all_collects (ops : list WriteOp) :
  forall b : t,
    forallb builder_accepts ops = true ->
    (offset b + total_width ops <= byteLength b)%nat ->
    getPacketData (apply_all ops b) = getPacketData b ++ payloads ops
    /\ size (apply_all ops b) = (offset b + total_width ops)%nat.
Proof.
  induction ops as [|op ops IH]; intros b Ha Hw.
  - simpl; unfold payloads, total_width; simpl.
    rewrite app_nil_r, Nat.add_0_r; auto.
  - simpl in Ha; apply andb_prop in Ha; destruct Ha as [Ha Has].
    unfold total_width in Hw; simpl in Hw; fold (total_width ops) in Hw.
    simpl. rewrite apply_success by (auto; lia).
    destruct (IH (mk (store (buffer b) (offset b) (payload op)) (offset b + width op)) Has)
      as [I1 I2].
    { unfold byteLength; simpl. rewrite BuilderFacts.store_length.
      - unfold byteLength in Hw; lia.
      - rewrite BuilderFacts.payload_length; unfold byteLength in Hw; lia. }
    rewrite I1, I2; simpl. split.
    + unfold getPacketData at 1; simpl.
      rewrite <- (BuilderFacts.payload_length op).
      rewrite getPacketData_store
        by (rewrite BuilderFacts.payload_length; unfold byteLength in Hw; lia).
      unfold payloads; simpl. now rewrite <- app_assoc.
    + unfold total_width; simpl; lia.
Qed.

(** On a builder whose cursor is at zero (fresh, or after [reset()]),
    a sequence of writes that fits the buffer and uses accepted
    encodings yields, through [getPacketData()], exactly the encodings
    of the written values one after the other, and [size()] is their
    total width: nothing of what the buffer held before shows up. *)
Theorem packet_data_is_the_written_fields (b : t) (ops : list WriteOp) :
  forallb builder_accepts ops = true ->
  (total_width ops <= byteLength b)%nat ->
  getPacketData (apply_all ops (reset b)) = payloads ops
  /\ size (apply_all ops (reset b)) = total_width ops.
Proof.
  intros Ha Hw.
  destruct (@apply_all_collects ops (reset b) Ha) as [H1 H2]; [exact Hw|].
  rewrite H1, H2; split; reflexivity.
Qed.

Lemma packet_data_is_the_written_fields_witness :
  forallb builder_accepts [OpUint8 7; OpString "hi" "utf8"; OpUint16 513 false] = true
  /\ (total_width [OpUint8 7; OpString "hi" "utf8"; OpUint16 513 false]
      <= byteLength (new 8))%nat
  /\ getPacketData (apply_all [OpUint8 7; OpString "hi" "utf8"; OpUint16 513 false]
                      (reset (new 8)))
     = [x07; x68; x69; x02; x01].
Proof.
  assert (H : (total_width [OpUint8 7; OpString "hi" "utf8"; OpUint16 513 false]
               <= byteLength (new 8))%nat) by (vm_compute; lia).
  split; [reflexivity|split; [exact H|]].
  rewrite (proj1 (@packet_data_is_the_written_fields (new 8)
                    [OpUint8 7; OpString "hi" "utf8"; OpUint16 513 false] eq_refl H)).
  reflexivity.
Defined.

Lemma apply_all_cursor (ops : list WriteOp) :
  forall b : t,
    (offset b <= byteLength b)%nat ->
    (offset (apply_all ops b) <= byteLength (apply_all ops b))%nat.
Proof.
  induction ops as [|op ops IH]; intros b Hb; simpl; [exact Hb|].
  destruct (apply op b) as [b'|e] eqn:E; [|now apply IH].
  apply IH.
  pose proof (BuilderFacts.apply_keeps_capacity op b E) as Hc.
  apply BuilderFacts.apply_Return in E; destruct E as (H1 & _ & H3). lia.
Qed.

(** Whatever is written to a builder created with [size] bytes,
    failing writes included, the cursor stays within the buffer, the
    buffer keeps its [size] bytes, and [getPacketData()] has exactly
    [size()] bytes. *)
Theorem cursor_stays_in_buffer (size0 : nat) (ops : list WriteOp) :
  let b := apply_all ops (new size0) in
  (size b <= size0)%nat
  /\ byteLength b = size0
  /\ List.length (getPacketData b) = size b.
Proof.
  intros b.
  assert (Hc : byteLength b = size0).
  { subst b; rewrite BuilderFacts.apply_all_keeps_capacity. apply BuilderFacts.new_capacity. }
  assert (Hi : (offset b <= byteLength b)%nat).
  { subst b; apply apply_all_cursor. simpl; lia. }
  unfold size, getPacketData. rewrite length_firstn.
  unfold byteLength in *. repeat split; lia.
Qed.

Lemma byte_of_Z_value (v : Z) : Z.of_N (Byte.to_N (byte_of_Z v)) = v mod 256.
Proof.
  pose proof (Z.mod_pos_bound v 256 ltac:(lia)) as Hb.
  unfold byte_of_Z.
  destruct (Byte.of_N (Z.to_N (v mod 256))) as [x|] eqn:E.
  - apply Byte.to_of_N in E; rewrite E. apply Z2N.id; lia.
  - apply Byte.of_N_None_iff in E. lia.
Qed.

Lemma le_bytes_value (w : nat) :
  forall v : Z, le_value (le_bytes w v) = v mod 2 ^ (8 * Z.of_nat w).
Proof.
  induction w as [|w IH]; intros v.
  - simpl. now rewrite Z.mod_1_r.
  - cbn [le_bytes le_value].
    rewrite byte_of_Z_value, IH, Z.shiftr_div_pow2 by lia.
    replace (8 * Z.of_nat (S w)) with (8 + 8 * Z.of_nat w) by lia.
    rewrite Z.pow_add_r by lia.
    change (2 ^ 8) with 256.
    rewrite Z.rem_mul_r by (try lia; apply Z.pow_pos_nonneg; lia).
    reflexivity.
Qed.

Lemma encode_uint_value (w : nat) (v : Z) (le : bool) :
  le_value (if le then encode_uint w v le else rev (encode_uint w v le))
  = v mod 2 ^ (8 * Z.of_nat w).
Proof.
  unfold encode_uint; destruct le; rewrite ?rev_involutive; apply le_bytes_value.
Qed.

(** The integer writers store the value reduced modulo 2^8, 2^16 or
    2^32 as its base-256 digits, least significant first when
    [littleEndian] is set and most significant first otherwise: reading
    the packet back in the same byte order returns that residue (so
    [writeUint8(256)] writes 0). *)
Theorem integer_writes_read_back (b : t) (v : Z) (littleEndian : bool) :
  (4 <= byteLength b)%nat ->
  let read bs := le_value (if littleEndian then bs else rev bs) in
  le_value (getPacketData (apply_all [OpUint8 v] (reset b))) = v mod 2 ^ 8
  /\ read (getPacketData (apply_all [OpUint16 v littleEndian] (reset b))) = v mod 2 ^ 16
  /\ read (getPacketData (apply_all [OpUint32 v littleEndian] (reset b))) = v mod 2 ^ 32.
Proof.
  intros Hb read; subst read.
  assert (H : forall op, builder_accepts op = true -> (width op <= 4)%nat ->
                         getPacketData (apply_all [op] (reset b)) = payload op).
  { intros op Ha Hw.
    destruct (@apply_all_collects [op] (reset b)) as [H1 _].
    - simpl; now rewrite Ha.
    - unfold total_width; simpl. change (byteLength (reset b)) with (byteLength b). lia.
    - rewrite H1. unfold payloads; simpl. now rewrite app_nil_r. }
  rewrite !H by (simpl; auto; lia). simpl payload.
  split; [|split].
  - apply (encode_uint_value 1 v true).
  - apply (encode_uint_value 2 v littleEndian).
  - apply (encode_uint_value 4 v littleEndian).
Qed.

Lemma integer_writes_read_back_witness :
  (4 <= byteLength (new 16))%nat
  /\ le_value (getPacketData (apply_all [OpUint8 256] (reset (new 16)))) = 256 mod 2 ^ 8.
Proof.
  assert (H : (4 <= byteLength (new 16))%nat) by (vm_compute; lia).
  split; [exact H|].
  exact (proj1 (@integer_writes_read_back (new 16) 256 true H)).
Defined.

End BuilderMore.

(** ** The init count, per session *)

Module EngineInitMore.
Import EngineInit.

(** After any sequence of calls (short enough for the 32-bit counter)
    the process count is the number of sessions that hold a slot; it is
    never negative and never above the number of sessions. *)
Theorem count_is_number_of_initialized_sessions (ops : list Op) :
  Z.of_nat (List.length ops) < 2 ^ 32 ->
  let p := snd (run ops start) in
  g_enetInitCount p = Z.of_nat (live (wrappers p))
  /\ 0 <= g_enetInitCount p <= Z.of_nat (List.length (wrappers p)).
Proof.
  intros Hb p.
  destruct (@EngineInitFacts.run_counted ops start) as (_ & _ & Hc);
    [reflexivity|simpl; lia|].
  fold p in Hc. unfold counted in Hc.
  pose proof (EngineInitFacts.live_le_length (wrappers p)).
  split; [exact Hc|lia].
Qed.

Lemma count_is_number_of_initialized_sessions_witness :
  Z.of_nat (List.length two_sessions) < 2 ^ 32
  /\ g_enetInitCount (snd (run two_sessions start))
     = Z.of_nat (live (wrappers (snd (run two_sessions start)))).
Proof.
  assert (H : Z.of_nat (List.length two_sessions) < 2 ^ 32) by (simpl; lia).
  split; [exact H|].
  exact (proj1 (@count_is_number_of_initialized_sessions two_sessions H)).
Defined.

(** Per wrapper, [initialize()] and [deinitialize()] are idempotent: a
    wrapper that holds a slot is left alone by a further
    [initialize()], and after [deinitialize()] a further one changes
    neither the count nor the wrapper; neither repeated call reaches
    the library. *)
Theorem initialize_and_deinitialize_are_idempotent (g : Z) (w : ENetWrapper)
    (enet_ok enet_ok' : bool) :
  (let '(g1, w1, r1) := Initialize g w enet_ok in
   fst r1 = Return true -> Initialize g1 w1 enet_ok' = (g1, w1, (Return true, [])))
  /\ (let '(g1, w1, _) := Deinitialize g w in
      Deinitialize g1 w1 = (g1, w1, (Return tt, []))).
Proof.
  split.
  - unfold Initialize, fetch_add, fetch_sub.
    destruct (initialized w) eqn:Hi; simpl.
    + intros _. now rewrite Hi.
    + destruct (g =? 0); [destruct enet_ok|]; simpl; auto; discriminate.
  - unfold Deinitialize, fetch_sub.
    destruct (initialized w); simpl; reflexivity.
Qed.

End EngineInitMore.

(** A session whose native wrapper holds no slot (never initialised, or
    after [deinitialize()]) cannot create a host: [createClient] and
    [createServer] throw 'ENet not initialized', publish it on [error],
    reach the library with nothing and leave [hostCreated] as it
    was. *)
Theorem host_creation_needs_initialize (s : Session) (ans : HostAnswer) :
  initialized (native s) = false ->
  let err := TypeError "ENet not initialized" in
  createClient ans s = (Throw err, emit error (PError err) s)
  /\ createServer true ans s = (Throw err, emit error (PError err) s)
  /\ engine_log (emit error (PError err) s) = engine_log s
  /\ hostCreated (emit error (PError err) s) = hostCreated s.
Proof.
  intros Hi err.
  cbv [createClient createServer try_catch bind get modify lift_native ret throw
       native_createHost]; simpl.
  rewrite Hi; simpl.
  rewrite log_calls_nil, engine_log_emit, hostCreated_emit.
  assert (W : with_native (native s) s = s) by (destruct s; reflexivity).
  rewrite W. repeat split.
Qed.

Lemma host_creation_needs_initialize_witness :
  initialized (native (snd (snd (ENetBase_deinitialize 1 (fresh_client CJS))))) = false
  /\ fst (createClient host_ok (snd (snd (ENetBase_deinitialize 1 (fresh_client CJS)))))
     = Throw (TypeError "ENet not initialized").
Proof.
  split; [reflexivity|].
  rewrite (proj1 (@host_creation_needs_initialize
                    (snd (snd (ENetBase_deinitialize 1 (fresh_client CJS)))) host_ok
                    eq_refl)).
  reflexivity.
Defined.

(** ** The registry across events *)

Lemma map_delete_appended (k : PeerId) (v : PeerRecord) (m : PeerMap) :
  map_get k m = None -> map_delete k (m ++ [(k, v)]) = m.
Proof.
  induction m as [|[k' v'] m IH]; simpl.
  - now rewrite Z.eqb_refl.
  - destruct (k =? k'); [discriminate|]. intros H; now rewrite IH.
Qed.

Lemma map_delete_set (k : PeerId) (v : PeerRecord) (m : PeerMap) :
  map_get k m <> None -> map_delete k (map_set k v m) = map_delete k m.
Proof.
  induction m as [|[k' v'] m IH]; simpl; [congruence|].
  destruct (k =? k') eqn:E; simpl; rewrite E; [reflexivity|].
  intros H; now rewrite IH.
Qed.

Lemma map_delete_after_set (k : PeerId) (v : PeerRecord) (m : PeerMap) :
  map_delete k (map_set k v m) = map_delete k m.
Proof.
  destruct (map_get k m) as [r|] eqn:Hg.
  - apply map_delete_set; congruence.
  - rewrite map_set_absent, map_delete_appended by exact Hg.
    symmetry; now apply map_delete_absent.
Qed.

Lemma peers_after_connect_event (p : PeerId) (s : Session) :
  exists r, peers (snd (handleEvent (EvConnect p) s)) = map_set p r (peers s).
Proof.
  unfold handleEvent, try_catch, bind, modify; simpl.
  rewrite peers_emit.
  destruct (map_get p (peers s)); simpl; eauto.
Qed.

Lemma peers_after_disconnect_event (p : PeerId) (d : Z) (s : Session) :
  peers (snd (handleEvent (EvDisconnect p d) s)) = map_delete p (peers s).
Proof.
  unfold handleEvent, try_catch, bind, modify; simpl.
  rewrite peers_emit.
  destruct (map_get p (peers s)) eqn:Hg; simpl.
  - apply map_delete_after_set.
  - symmetry; now apply map_delete_absent.
Qed.

(** A Connect event followed by the Disconnect event of the same peer
    leaves the registry without that peer and every other entry where
    and as it was; if the peer was unknown before, the registry is back
    to what it was. *)
Theorem connect_then_disconnect_restores_registry (p : PeerId) (d : Z) (s : Session) :
  let s' := snd (handleEvent (EvDisconnect p d) (snd (handleEvent (EvConnect p) s))) in
  peers s' = map_delete p (peers s)
  /\ (map_has p (peers s) = false -> peers s' = peers s).
Proof.
  intros s'.
  assert (E : peers s' = map_delete p (peers s)).
  { subst s'; rewrite peers_after_disconnect_event.
    destruct (peers_after_connect_event p s) as [r ->].
    apply map_delete_after_set. }
  split; [exact E|].
  intros Hn; rewrite E. apply map_delete_absent.
  unfold map_has in Hn; destruct (map_get p (peers s)); [discriminate|reflexivity].
Qed.
